(** * flight_search_ctrip.py: a shallow embedding and its properties

    The script drives a browser through Playwright, dismisses popups,
    submits a search and scrapes flight cards, falling back to a regular
    expression scan of the page text.  Everything the browser answers is
    outside the script, so the script is embedded as a program over
    browser calls ([Playwright.prog]) and run against an arbitrary
    environment that chooses every answer (and every exception). *)

From Stdlib Require Import NArith ZArith String Ascii Lia.
From stdpp Require Import base option list strings gmap.

Open Scope N_scope.
Open Scope nat_scope.

(* ===================================================================== *)
(** * Python strings *)
(* ===================================================================== *)

(** A Python [str] is a sequence of Unicode code points: a [list N]. *)

(** What the Python runtime decides and the script does not: the Unicode
    character tables behind [str.isspace], [\d], [\s], [\w], and the
    iteration order of a [set] of strings (it depends on the per-process
    hash seed). *)
Class PyRuntime := {
  (** [Py_UNICODE_ISDECIMAL]: the class [\d] of [re] on [str] patterns *)
  isdecimal : N → bool;
  (** [Py_UNICODE_ISSPACE]: [str.strip], [str.split] and [\s] *)
  isspace : N → bool;
  (** [Py_UNICODE_ISALNUM]: with [_], the class [\w] behind [\b] *)
  isalnum : N → bool;
  (** the order in which [list(set(l))] lists the distinct members of [l] *)
  set_to_list : list (list N) → list (list N);
  (** below U+0100 the only decimal digits are [0] to [9] *)
  isdecimal_latin1 :
    ∀ c, (c < 256)%N → isdecimal c = ((48 <=? c) && (c <=? 57))%N;
  set_to_list_NoDup : ∀ l, NoDup (set_to_list l);
  set_to_list_elem : ∀ l x, x ∈ set_to_list l ↔ x ∈ l
}.

Module Py.

(** ** Literals: decoding the UTF-8 bytes of a source literal *)

Fixpoint utf8_decode (bs : list N) : list N :=
  match bs with
  | [] => []
  | b0 :: t0 =>
    if (b0 <? 128)%N then b0 :: utf8_decode t0
    else match t0 with
    | [] => []
    | b1 :: t1 =>
      if (b0 <? 224)%N then ((b0 - 192) * 64 + (b1 - 128))%N :: utf8_decode t1
      else match t1 with
      | [] => []
      | b2 :: t2 =>
        if (b0 <? 240)%N
        then ((b0 - 224) * 4096 + (b1 - 128) * 64 + (b2 - 128))%N
               :: utf8_decode t2
        else match t2 with
        | [] => []
        | b3 :: t3 =>
          ((b0 - 240) * 262144 + (b1 - 128) * 4096
           + (b2 - 128) * 64 + (b3 - 128))%N :: utf8_decode t3
        end
      end
    end
  end.

(** [u "..."] is the Python string written as that literal. *)
Definition u (s : string) : list N :=
  utf8_decode (List.map N_of_ascii (list_ascii_of_string s)).

(** ** [str] methods used by the script *)

(** [s.replace(old, new)] for a one-character [old]. *)
Definition replace (old : N) (new : list N) (s : list N) : list N :=
  List.flat_map (fun c => if (c =? old)%N then new else [c]) s.

Fixpoint lstrip `{PyRuntime} (s : list N) : list N :=
  match s with
  | c :: s' => if isspace c then lstrip s' else s
  | [] => []
  end.

(** [s.strip()] *)
Definition strip `{PyRuntime} (s : list N) : list N :=
  rev (lstrip (rev (lstrip s))).

Fixpoint split_go `{PyRuntime} (word : list N) (s : list N) : list (list N) :=
  match s with
  | [] => match word with [] => [] | _ => [word] end
  | c :: s' =>
    if isspace c
    then match word with [] => split_go [] s' | _ => word :: split_go [] s' end
    else split_go (word ++ [c]) s'
  end.

(** [s.split()]: the maximal runs of characters that are not white space *)
Definition split `{PyRuntime} (s : list N) : list (list N) := split_go [] s.

(** Truth value of [d.get(k)]: a missing key gives [None], and [None] and
    the empty string are false. *)
Definition truthy (o : option (list N)) : bool :=
  match o with
  | Some (_ :: _) => true
  | _ => false
  end.

(** ** Decimal rendering of numbers, as [str(n)] and [%d] do *)

Fixpoint decimal_go (fuel : nat) (n : N) (acc : list N) : list N :=
  match fuel with
  | 0 => acc
  | S fuel' =>
    let acc' := (48 + n mod 10)%N :: acc in
    if (n / 10 =? 0)%N then acc' else decimal_go fuel' (n / 10)%N acc'
  end.

(** [str(n)] for a natural number: no sign, no leading zero (a number
    has no more decimal digits than binary ones, which bounds the loop) *)
Definition decimal (n : N) : list N := decimal_go (S (N.size_nat n)) n [].

(** Zero padding on the left up to [w] characters, as [%02d] does *)
Definition zfill (w : nat) (s : list N) : list N :=
  replicate (w - length s) 48%N ++ s.

End Py.

(* ===================================================================== *)
(** * The regular expressions of the script *)
(* ===================================================================== *)

Module Re.

(** The fragment of [re] syntax the four patterns of the script use.  A
    repetition is always over one character class, so it is a primitive;
    [r?] is [Alt r Eps] (greedy: [r] is tried first). *)
Inductive re : Type :=
| Eps
| Chr (p : N → bool)                          (* one character of a class *)
| Rep (p : N → bool) (lo : nat) (hi : option nat)  (* greedy [p{lo,hi}] *)
| WordB                                       (* [\b] *)
| Seq (a b : re)
| Alt (a b : re)
| Grp (a : re).                               (* the capture group *)

(** A position in the subject: the character before it, the text ahead. *)
Record cursor := Cursor { before : option N; ahead : list N }.

Definition isword `{PyRuntime} (c : N) : bool := isalnum c || (c =? 95)%N.

Definition word_at `{PyRuntime} (o : option N) : bool :=
  match o with Some c => isword c | None => false end.

(** [\b]: exactly one side of the position is a word character *)
Definition at_boundary `{PyRuntime} (c : cursor) : bool :=
  xorb (word_at (before c)) (word_at (head (ahead c))).

(** A match: where it ends and what group 1 holds. *)
Definition found : Type := cursor * option (list N).

Definition may_repeat (hi : option nat) : bool :=
  match hi with Some 0 => false | _ => true end.

(** Greedy bounded repetition with backtracking: take one more character
    when allowed and the rest matches, otherwise stop here. *)
Fixpoint rep (p : N → bool) (lo : nat) (hi : option nat)
    (prev : option N) (s : list N) (k : cursor → option found)
    : option found :=
  let stop := match lo with 0 => k (Cursor prev s) | S _ => None end in
  match s with
  | c :: s' =>
    if p c && may_repeat hi
    then match rep p (pred lo) (pred <$> hi) (Some c) s' k with
         | Some f => Some f
         | None => stop
         end
    else stop
  | [] => stop
  end.

(** The backtracking matcher, in continuation-passing style: [k] is the
    rest of the pattern. *)
Fixpoint exec `{PyRuntime} (r : re) (c : cursor) (g : option (list N))
    (k : cursor → option (list N) → option found) : option found :=
  match r with
  | Eps => k c g
  | Chr p =>
    match ahead c with
    | ch :: s => if p ch then k (Cursor (Some ch) s) g else None
    | [] => None
    end
  | Rep p lo hi => rep p lo hi (before c) (ahead c) (fun c' => k c' g)
  | WordB => if at_boundary c then k c g else None
  | Seq a b => exec a c g (fun c' g' => exec b c' g' k)
  | Alt a b =>
    match exec a c g k with
    | Some f => Some f
    | None => exec b c g k
    end
  | Grp a =>
    exec a c g (fun c' _ =>
      k c' (Some (take (length (ahead c) - length (ahead c')) (ahead c))))
  end.

(** An attempt to match [r] starting exactly at [c]. *)
Definition match_at `{PyRuntime} (r : re) (c : cursor) : option found :=
  exec r c None (fun c' g => Some (c', g)).

(** [re.search(r, s)]: the match at the leftmost position that has one. *)
Fixpoint search_from `{PyRuntime} (r : re) (prev : option N) (s : list N)
    : option found :=
  match match_at r (Cursor prev s) with
  | Some f => Some f
  | None =>
    match s with
    | [] => None
    | c :: s' => search_from r (Some c) s'
    end
  end.

Definition search `{PyRuntime} (r : re) (s : list N) : option found :=
  search_from r None s.

(** [m.group(1)] *)
Definition group1 (f : found) : list N := default [] (snd f).

(** [re.findall(r, s)] for a pattern with one group: the group of each
    match, scanning left to right; after a match that consumed [n]
    characters the scan resumes [max n 1] characters further ([skip]
    counts the characters still covered by the previous match). *)
Fixpoint scan `{PyRuntime} (r : re) (skip : nat) (prev : option N)
    (s : list N) : list (list N) :=
  match skip with
  | S n =>
    match s with
    | [] => []
    | c :: s' => scan r n (Some c) s'
    end
  | 0 =>
    match match_at r (Cursor prev s) with
    | Some f =>
      group1 f ::
        match s with
        | [] => []
        | c :: s' =>
          scan r (pred (length s - length (ahead (fst f)))) (Some c) s'
        end
    | None =>
      match s with
      | [] => []
      | c :: s' => scan r 0 (Some c) s'
      end
    end
  end.

Definition findall `{PyRuntime} (r : re) (s : list N) : list (list N) :=
  scan r 0 None s.

End Re.

(* ===================================================================== *)
(** * Exceptions and [datetime] *)
(* ===================================================================== *)

(** The three classes the [except] clauses of the script tell apart:
    [PlaywrightTimeoutError] is an [Exception]; [KeyboardInterrupt],
    [asyncio.CancelledError] and the like are [BaseException] only. *)
Inductive exn_class : Type :=
| BaseExceptionOnly
| OtherException
| PlaywrightTimeoutError.

Record exn := Exn { exn_cls : exn_class; exn_msg : list N }.

Inductive result (A : Type) : Type :=
| Ok (a : A)
| Err (e : exn).
Arguments Ok {A} a.
Arguments Err {A} e.

#[global] Instance exn_class_eq_dec : EqDecision exn_class.
Proof. solve_decision. Defined.
#[global] Instance exn_eq_dec : EqDecision exn.
Proof. solve_decision. Defined.
#[global] Instance result_eq_dec `{EqDecision A} : EqDecision (result A).
Proof. solve_decision. Defined.

#[global] Instance result_ret : MRet result := @Ok.
#[global] Instance result_bind : MBind result := fun A B f r =>
  match r with Ok a => f a | Err e => Err e end.

(** [except:] *)
Definition except_any (e : exn) : bool := true.

(** [except Exception as e:] *)
Definition except_Exception (e : exn) : bool :=
  match exn_cls e with BaseExceptionOnly => false | _ => true end.

(** [except PlaywrightTimeoutError:] *)
Definition except_PlaywrightTimeoutError (e : exn) : bool :=
  match exn_cls e with PlaywrightTimeoutError => true | _ => false end.

Module Datetime.

(** The date of a [datetime]; the time of day is carried along by
    [+ timedelta(days=1)] and never printed by the script. *)
Record datetime := Date { year : N; month : N; day : N }.

Definition MINYEAR : N := 1.
Definition MAXYEAR : N := 9999.

Definition is_leap (y : N) : bool :=
  ((y mod 4 =? 0) && (negb (y mod 100 =? 0) || (y mod 400 =? 0)))%N.

Definition days_in_month (y m : N) : N :=
  (match m with
   | 2 => if is_leap y then 29 else 28
   | 4 | 6 | 9 | 11 => 30
   | _ => 31
   end)%N.

(** The invariant of every [datetime] object. *)
Definition valid (d : datetime) : Prop :=
  (MINYEAR ≤ year d ≤ MAXYEAR ∧ 1 ≤ month d ≤ 12
   ∧ 1 ≤ day d ≤ days_in_month (year d) (month d))%N.

(** [d + timedelta(days=1)]; past 9999-12-31 Python raises
    [OverflowError], an [Exception]. *)
Definition add_one_day (d : datetime) : result datetime :=
  if (day d <? days_in_month (year d) (month d))%N
  then Ok (Date (year d) (month d) (day d + 1))
  else if (month d <? 12)%N
  then Ok (Date (year d) (month d + 1) 1)
  else if (year d <? MAXYEAR)%N
  then Ok (Date (year d + 1) 1 1)
  else Err (Exn OtherException (Py.u "date value out of range")).

(** [d.strftime("%Y-%m-%d")]: four, two and two digits, zero padded (as
    the Python documentation has it; for the years of a running clock
    every platform agrees) *)
Definition strftime_Y_m_d (d : datetime) : list N :=
  Py.zfill 4 (Py.decimal (year d)) ++ Py.u "-"
  ++ Py.zfill 2 (Py.decimal (month d)) ++ Py.u "-"
  ++ Py.zfill 2 (Py.decimal (day d)).

End Datetime.

(* ===================================================================== *)
(** * Programs over the browser *)
(* ===================================================================== *)

Module Playwright.

(** A [Locator] is a description of elements; building one asks the
    browser nothing. *)
Inductive locator : Type :=
| Locator (selector : string)               (* [page.locator(selector)] *)
| Sub (l : locator) (selector : string)     (* [l.locator(selector)] *)
| First (l : locator)                       (* [l.first] *)
| Nth (l : locator) (i : nat).              (* item [i] of [await l.all()] *)

#[global] Instance locator_eq_dec : EqDecision locator.
Proof. solve_decision. Defined.

(** The awaited operations: every one is answered by the world outside
    the script, with a value or with an exception.  Options that only
    configure the browser (window size, locale, user agent) are not
    carried. *)
Inductive call : Type :=
| DatetimeNow                                (* [datetime.now()] *)
| PlaywrightStart                            (* entering [async with] *)
| PlaywrightStop                             (* leaving it *)
| Launch (headless : bool) (slow_mo : Z)     (* [p.chromium.launch] *)
| NewContext                                 (* [browser.new_context] *)
| NewPage                                    (* [context.new_page] *)
| BrowserClose                               (* [browser.close] *)
| Goto (url : list N) (wait_until : string) (timeout : Z)
| WaitForTimeout (ms : Z)
| WaitForSelector (selector : string) (timeout : Z)
| Count (l : locator)                        (* behind [l.all()] *)
| IsVisible (l : locator) (timeout : option Z)
| Click (l : locator) (timeout : option Z)
| Fill (l : locator) (text : list N)
| KeyboardPress (key : string)
| TextContent (l : locator)
| AllTextContents (l : locator)
| Content                                    (* [page.content()] *)
| InnerText (selector : string)              (* [page.inner_text] *)
| Screenshot (path : string).

Definition reply (c : call) : Type :=
  match c with
  | DatetimeNow => Datetime.datetime
  | Count _ => nat
  | IsVisible _ _ => bool
  | TextContent _ => option (list N)
  | AllTextContents _ => list (list N)
  | Content | InnerText _ => list N
  | _ => unit
  end.

(** What the script writes: [print] lines and [traceback.print_exc()]. *)
Inductive output : Type :=
| Stdout (line : list N)
| Traceback (e : exn).

(** A program: it returns, raises, writes, or awaits a call and goes on
    with the answer or the exception. *)
Inductive prog (A : Type) : Type :=
| Ret (a : A)
| Raise (e : exn)
| Write (o : output) (k : prog A)
| Do (c : call) (k : result (reply c) → prog A).
Arguments Ret {A} a.
Arguments Raise {A} e.
Arguments Write {A} o k.
Arguments Do {A} c k.

Fixpoint bind {A B} (p : prog A) (f : A → prog B) : prog B :=
  match p with
  | Ret a => f a
  | Raise e => Raise e
  | Write o k => Write o (bind k f)
  | Do c k => Do c (fun r => bind (k r) f)
  end.

#[global] Instance prog_ret : MRet prog := @Ret.
#[global] Instance prog_bind : MBind prog := fun A B f p => bind p f.

(** [await] of one call: its value, or its exception raised here. *)
Definition await (c : call) : prog (reply c) :=
  Do c (fun r => match r with Ok v => Ret v | Err e => Raise e end).

Definition print (line : list N) : prog unit := Write (Stdout line) (Ret tt).

(** [try: p except <catches> as e: handler e] *)
Fixpoint try_except {A} (catches : exn → bool) (p : prog A)
    (handler : exn → prog A) : prog A :=
  match p with
  | Ret a => Ret a
  | Raise e => if catches e then handler e else Raise e
  | Write o k => Write o (try_except catches k handler)
  | Do c k => Do c (fun r => try_except catches (k r) handler)
  end.

(** [try: p finally: cleanup]; an exception of [cleanup] replaces the
    outcome of [p]. *)
Fixpoint try_finally {A} (p : prog A) (cleanup : prog unit) : prog A :=
  match p with
  | Ret a => bind cleanup (fun _ => Ret a)
  | Raise e => bind cleanup (fun _ => Raise e)
  | Write o k => Write o (try_finally k cleanup)
  | Do c k => Do c (fun r => try_finally (k r) cleanup)
  end.

(** [for x in l: body x] *)
Fixpoint for_each {X} (l : list X) (body : X → prog unit) : prog unit :=
  match l with
  | [] => Ret tt
  | x :: l' => bind (body x) (fun _ => for_each l' body)
  end.

(** [await l.all()] is [[l.nth(i) for i in range(await l.count())]]. *)
Definition all (l : locator) : prog (list locator) :=
  bind (await (Count l)) (fun n => Ret (List.map (Nth l) (seq 0 n))).

(** ** Running a program *)

Inductive event : Type :=
| Wrote (o : output)
| Called (c : call) (r : result (reply c)).

(** The world: it answers each call knowing all that happened before. *)
Definition env : Type := list event → ∀ c : call, result (reply c).

(** [run E p h]: the history after [p] ran from history [h], and how [p]
    ended. *)
Fixpoint run {A} (E : env) (p : prog A) (h : list event)
    : list event * result A :=
  match p with
  | Ret a => (h, Ok a)
  | Raise e => (h, Err e)
  | Write o k => run E k (h ++ [Wrote o])
  | Do c k => run E (k (E h c)) (h ++ [Called c (E h c)])
  end.

(** The elements the script clicked (tried to click), in order. *)
Definition click_of (ev : event) : option locator :=
  match ev with
  | Called (Click l _) _ => Some l
  | _ => None
  end.

Definition clicks (h : list event) : list locator := omap click_of h.

Definition goto_of (ev : event) : option (list N) :=
  match ev with
  | Called (Goto url _ _) _ => Some url
  | _ => None
  end.

(** The URLs the script navigated to, in order. *)
Definition gotos (h : list event) : list (list N) := omap goto_of h.

#[global] Instance call_eq_dec : EqDecision call.
Proof. solve_decision. Defined.
#[global] Instance output_eq_dec : EqDecision output.
Proof. solve_decision. Defined.

Definition call_of (ev : event) : option call :=
  match ev with Called c _ => Some c | Wrote _ => None end.

(** The calls the script made, in order. *)
Definition calls (h : list event) : list call := omap call_of h.

Definition output_of (ev : event) : option output :=
  match ev with Wrote o => Some o | Called _ _ => None end.

(** What the script wrote, in order. *)
Definition outputs (h : list event) : list output := omap output_of h.

(** ** Properties of programs *)

(** What a program may return: [Q] holds of every value it returns, in
    every world and from every history. *)
Definition returns_only {A} (p : prog A) (Q : A → Prop) : Prop :=
  ∀ (E : env) h, match (run E p h).2 with Ok a => Q a | Err _ => True end.

(** A program that returns in every world. *)
Definition never_raises {A} (p : prog A) : Prop :=
  ∀ (E : env) h, ∃ a, (run E p h).2 = Ok a.

(** Every call a program can make satisfies [P]. *)
Inductive calls_only (P : call → Prop) {A} : prog A → Prop :=
| co_ret a : calls_only P (Ret a)
| co_raise e : calls_only P (Raise e)
| co_write o k : calls_only P k → calls_only P (Write o k)
| co_do c k : P c → (∀ r, calls_only P (k r)) → calls_only P (Do c k).



(** A call that is not a navigation. *)
Definition no_goto (c : call) : Prop :=
  match c with Goto _ _ _ => False | _ => True end.

End Playwright.

(* ===================================================================== *)
(** * The script *)
(* ===================================================================== *)

Module Ctrip.
Import Playwright.

(** ** Text helpers *)

Definition dq : string := String (ascii_of_nat 34) EmptyString.
Definition nl : list N := [10%N].

(** [[name op "value"]] and [tag:has-text("text")], as CSS text *)
Definition attr (name op value : string) : string :=
  "[" +:+ name +:+ op +:+ dq +:+ value +:+ dq +:+ "]".
Definition has_text (tag text : string) : string :=
  tag +:+ ":has-text(" +:+ dq +:+ text +:+ dq +:+ ")".

(** A flight record is a [dict] from field names to strings. *)
Definition get_or (flight : gmap string (list N)) (key : string)
    (default_value : list N) : list N :=
  default default_value (flight !! key).

(** ** [handle_popups] *)

Definition popup_handlers : list (string * list N) :=
  [ ("button" +:+ attr "class" "*=" "close" +:+ ", "
       +:+ attr "class" "*=" "close-btn" +:+ ", .close, "
       +:+ attr "aria-label" "=" "关闭",
     Py.u "关闭按钮");
    (attr "class" "*=" "modal" +:+ " button" +:+ attr "class" "*=" "close"
       +:+ ", " +:+ attr "class" "*=" "dialog" +:+ " "
       +:+ attr "class" "*=" "close",
     Py.u "弹窗关闭");
    (attr "class" "*=" "app-download" +:+ " .close, "
       +:+ attr "class" "*=" "download" +:+ " .close",
     Py.u "APP下载提示");
    (has_text "button" "稍后再说" +:+ ", " +:+ has_text "button" "暂不"
       +:+ ", " +:+ has_text "button" "取消",
     Py.u "稍后提示");
    (has_text "button" "接受" +:+ ", " +:+ has_text "button" "同意"
       +:+ ", " +:+ has_text "button" "我知道了",
     Py.u "Cookie提示") ].

Definition dismiss (desc : list N) (elem : locator) : prog unit :=
  visible ← await (IsVisible elem (Some 1000%Z));
  if (visible : bool)
  then await (Click elem (Some 2000%Z));;
       print (Py.u "  ✓ 已处理: " ++ desc);;
       await (WaitForTimeout 500)
  else Ret tt.

Definition handle_popups : prog unit :=
  for_each popup_handlers (fun '(selector, desc) =>
    try_except except_any
      (elements ← all (Locator selector);
       for_each elements (dismiss desc))
      (fun _ => Ret tt)).

(** ** [extract_generic_flight_info]: the fallback *)

Definition upper (c : N) : bool := ((65 <=? c) && (c <=? 90))%N.
Definition one_of (cs : list N) (c : N) : bool := bool_decide (c ∈ cs).
Definition is_char (x : N) (c : N) : bool := (c =? x)%N.

(** [\b([A-Z]{2}\d{3,4})\b] *)
Definition flight_pattern `{PyRuntime} : Re.re :=
  Re.Seq Re.WordB
    (Re.Seq (Re.Grp (Re.Seq (Re.Rep upper 2 (Some 2))
                            (Re.Rep isdecimal 3 (Some 4))))
            Re.WordB).

(** [\b(\d{2}:\d{2})\b] *)
Definition time_pattern `{PyRuntime} : Re.re :=
  Re.Seq Re.WordB
    (Re.Seq (Re.Grp (Re.Seq (Re.Rep isdecimal 2 (Some 2))
                      (Re.Seq (Re.Chr (is_char 58))
                              (Re.Rep isdecimal 2 (Some 2)))))
            Re.WordB).

(** [[¥￥]?\s*(\d{3,5})\s*(?:元|起)?] *)
Definition price_pattern `{PyRuntime} : Re.re :=
  Re.Seq (Re.Rep (one_of (Py.u "¥￥")) 0 (Some 1))
    (Re.Seq (Re.Rep isspace 0 None)
      (Re.Seq (Re.Grp (Re.Rep isdecimal 3 (Some 5)))
        (Re.Seq (Re.Rep isspace 0 None)
          (Re.Alt (Re.Alt (Re.Chr (one_of (Py.u "元")))
                          (Re.Chr (one_of (Py.u "起"))))
                  Re.Eps)))).

(** [xs[i]]: an [IndexError] when [i] is out of range *)
Definition index (xs : list (list N)) (i : nat) : result (list N) :=
  match xs !! i with
  | Some x => Ok x
  | None => Err (Exn OtherException (Py.u "list index out of range"))
  end.

(** [xs[i] if i < len(xs) else ""] *)
Definition item_or_empty (xs : list (list N)) (i : nat) : result (list N) :=
  if bool_decide (i < length xs) then index xs i else Ok [].

(** The [dict] literal of the loop body, its values evaluated in order. *)
Definition generic_record (times prices : list (list N)) (i : nat)
    (flight_no : list N) : result (gmap string (list N)) :=
  depart_time ← item_or_empty times (i * 2);
  arrive_time ← item_or_empty times (i * 2 + 1);
  price ← item_or_empty prices i;
  Ok (<["price" := price]>
      (<["arrive_time" := arrive_time]>
      (<["depart_time" := depart_time]>
      (<["flight_no" := flight_no]> ∅)))).

(** The loop [for i, flight_no in enumerate(...)]: the list [flights] as
    the loop leaves it, and the exception that ended it, if any. *)
Fixpoint build_records (times prices : list (list N)) (i : nat)
    (items : list (list N)) (flights : list (gmap string (list N)))
    : list (gmap string (list N)) * option exn :=
  match items with
  | [] => (flights, None)
  | flight_no :: rest =>
    match generic_record times prices i flight_no with
    | Ok flight_info =>
      build_records times prices (S i) rest (flights ++ [flight_info])
    | Err e => (flights, Some e)
    end
  end.

(** What the [try] does with the body text. *)
Definition generic_records `{PyRuntime} (text_content : list N)
    : list (gmap string (list N)) * option exn :=
  let flight_numbers := Re.findall flight_pattern text_content in
  let times := Re.findall time_pattern text_content in
  let prices := Re.findall price_pattern text_content in
  let unique_flights := set_to_list flight_numbers in
  build_records times prices 0 (take 10 unique_flights) [].

(** [flights] is filled inside the [try] and returned after it, so it is
    passed along with the exception that left the [try], if any. *)
Definition extract_generic_flight_info `{PyRuntime}
    : prog (list (gmap string (list N))) :=
  Do (InnerText "body") (fun r =>
    let '(flights, raised) :=
      match r with
      | Ok text_content => generic_records text_content
      | Err e => ([], Some e)
      end in
    match raised with
    | None => Ret flights
    | Some e =>
      if except_Exception e
      then print (Py.u "  通用提取失败: " ++ exn_msg e);; Ret flights
      else Raise e
    end).

(** ** [extract_flight_info]: the structured extraction *)

Definition selectors : list string :=
  [ attr "class" "*=" "flight-item";
    attr "class" "*=" "FlightItem";
    attr "class" "*=" "list-item";
    attr "class" "*=" "flight-card";
    "[data-flight]";
    ".flight-box" ].

(** The cascade over [selectors]: the elements of the first selector
    that has any; a selector whose query raises is passed over. *)
Fixpoint find_flight_elements (candidates : list string)
    : prog (list locator) :=
  match candidates with
  | [] => Ret []
  | selector :: rest =>
    hit ← try_except except_any
      (elements ← all (Locator selector);
       match elements with
       | [] => Ret None
       | _ :: _ =>
         print (Py.u "  使用选择器: " ++ Py.u selector ++ Py.u ", 找到 "
                ++ Py.decimal (N.of_nat (length elements))
                ++ Py.u " 个元素");;
         Ret (Some elements)
       end)
      (fun _ => Ret None);
    match hit with
    | Some elements => Ret elements
    | None => find_flight_elements rest
    end
  end.

(** [re.search(r"(\d+)", price_elem.replace(",", ""))] and
    [price_match.group(1) if price_match else ""] *)
Definition parse_price `{PyRuntime} (price_elem : list N) : list N :=
  match Re.search (Re.Grp (Re.Rep isdecimal 1 None))
                  (Py.replace 44 [] price_elem) with
  | Some price_match => Re.group1 price_match
  | None => []
  end.

(** [text.strip() if text else ""] *)
Definition strip_or_empty `{PyRuntime} (text : option (list N)) : list N :=
  match text with
  | Some ((_ :: _) as t) => Py.strip t
  | _ => []
  end.

Definition airline_selector : string :=
  attr "class" "*=" "airline" +:+ ", " +:+ attr "class" "*=" "flight-no"
  +:+ ", " +:+ attr "class" "*=" "Airline".
Definition time_selector : string :=
  attr "class" "*=" "time" +:+ ", " +:+ attr "class" "*=" "Time".
Definition airport_selector : string :=
  attr "class" "*=" "airport" +:+ ", " +:+ attr "class" "*=" "Airport".
Definition price_selector : string :=
  attr "class" "*=" "price" +:+ ", " +:+ attr "class" "*=" "Price".
Definition craft_selector : string :=
  attr "class" "*=" "craft" +:+ ", " +:+ attr "class" "*=" "plane"
  +:+ ", " +:+ attr "class" "*=" "机型".
Definition rate_selector : string :=
  attr "class" "*=" "rate" +:+ ", " +:+ attr "class" "*=" "准点".

(** All the field reads of one card (the body of the [try], up to the
    test that decides whether the record is kept). *)
Definition read_card `{PyRuntime} (elem : locator)
    : prog (gmap string (list N)) :=
  let flight_info : gmap string (list N) := ∅ in
  airline_text ← await (TextContent (First (Sub elem airline_selector)));
  let flight_info :=
    match airline_text with
    | Some ((_ :: _) as text) =>
      let parts := Py.split (Py.strip text) in
      <["flight_no" := match parts with _ :: p1 :: _ => p1 | _ => [] end]>
      (<["airline" := match parts with p0 :: _ => p0 | [] => [] end]>
         flight_info)
    | _ => flight_info
    end in
  time_elems ← await (AllTextContents (Sub elem time_selector));
  let flight_info :=
    match time_elems with
    | t0 :: t1 :: _ =>
      <["arrive_time" := Py.strip t1]>
      (<["depart_time" := Py.strip t0]> flight_info)
    | _ => flight_info
    end in
  airport_elems ← await (AllTextContents (Sub elem airport_selector));
  let flight_info :=
    match airport_elems with
    | a0 :: a1 :: _ =>
      <["arrive_airport" := Py.strip a1]>
      (<["depart_airport" := Py.strip a0]> flight_info)
    | _ => flight_info
    end in
  price_elem ← await (TextContent (First (Sub elem price_selector)));
  let flight_info :=
    match price_elem with
    | Some ((_ :: _) as text) => <["price" := parse_price text]> flight_info
    | _ => flight_info
    end in
  craft_elem ← await (TextContent (First (Sub elem craft_selector)));
  let flight_info := <["aircraft" := strip_or_empty craft_elem]> flight_info in
  rate_elem ← await (TextContent (First (Sub elem rate_selector)));
  let flight_info :=
    <["on_time_rate" := strip_or_empty rate_elem]> flight_info in
  Ret flight_info.

(** [flight_info.get("flight_no") or flight_info.get("price")] *)
Definition has_basic_info (flight_info : gmap string (list N)) : bool :=
  Py.truthy (flight_info !! "flight_no") || Py.truthy (flight_info !! "price").

(** One turn of the loop over the cards: the record is appended when it
    has basic information; any [Exception] abandons the card. *)
Definition extract_card `{PyRuntime} (flights : list (gmap string (list N)))
    (elem : locator) : prog (list (gmap string (list N))) :=
  try_except except_Exception
    (flight_info ← read_card elem;
     if has_basic_info flight_info
     then Ret (flights ++ [flight_info])
     else Ret flights)
    (fun _ => Ret flights).

Fixpoint extract_cards `{PyRuntime} (elems : list locator)
    (flights : list (gmap string (list N)))
    : prog (list (gmap string (list N))) :=
  match elems with
  | [] => Ret flights
  | elem :: rest =>
    flights' ← extract_card flights elem;
    extract_cards rest flights'
  end.

(** The structured phase: the cascade, then the loop over at most 20
    cards. *)
Definition extract_structured `{PyRuntime}
    : prog (list (gmap string (list N))) :=
  _ ← await Content;
  flight_elements ← find_flight_elements selectors;
  extract_cards (take 20 flight_elements) [].

Definition extract_flight_info `{PyRuntime}
    : prog (list (gmap string (list N))) :=
  flights ← extract_structured;
  match flights with
  | [] =>
    print (Py.u "  尝试通用提取方法...");;
    extract_generic_flight_info
  | _ :: _ => Ret flights
  end.

(** ** [search_flights] *)

Definition international_url (depdate : list N) : list N :=
  Py.u "https://flights.ctrip.com/international/search/oneway-sha-bjs?depdate="
  ++ depdate ++ Py.u "&cabin=y_s".

Definition domestic_url (depdate : list N) : list N :=
  Py.u "https://flights.ctrip.com/online/list/oneway-hak-bjs?depdate="
  ++ depdate ++ Py.u "&cabin=y_s".

(** Steps 4a and 4b: one city field, filled when it is visible. *)
Definition fill_city (selector : string) (city : list N) (excuse : list N)
    : prog unit :=
  try_except except_Exception
    (let input := First (Locator selector) in
     visible ← await (IsVisible input None);
     if (visible : bool)
     then await (Click input None);;
          await (WaitForTimeout 500);;
          await (Fill input city);;
          await (WaitForTimeout 1000);;
          await (KeyboardPress "Enter")
     else Ret tt)
    (fun e => print (excuse ++ exn_msg e)).

Definition search_selectors : list string :=
  [ has_text "button" "搜索";
    has_text "button" "查询";
    ".search-btn";
    attr "class" "*=" "search";
    "button" +:+ attr "type" "=" "submit" ].

Inductive loop_exit : Type := Break | Continue.

(** Step 5, the loop over the candidates: [break] after a click that
    returned, [continue] after anything raised. *)
Fixpoint click_search (candidates : list string) : prog unit :=
  match candidates with
  | [] => Ret tt
  | selector :: rest =>
    exit ← try_except except_any
      (let search_btn := First (Locator selector) in
       visible ← await (IsVisible search_btn (Some 2000%Z));
       if (visible : bool)
       then await (Click search_btn None);; Ret Break
       else Ret Continue)
      (fun _ => Ret Continue);
    match exit with
    | Break => Ret tt
    | Continue => click_search rest
    end
  end.

Definition submit : prog unit :=
  try_except except_Exception
    (click_search search_selectors)
    (fun e => print (Py.u "  搜索按钮点击可能已通过 URL 跳过: " ++ exn_msg e)).

Definition print_flight (i : nat) (flight : gmap string (list N))
    : prog unit :=
  print (nl ++ Py.u "【航班 " ++ Py.decimal (N.of_nat (S i)) ++ Py.u "】");;
  print (Py.u "  航空公司: " ++ get_or flight "airline" (Py.u "N/A"));;
  print (Py.u "  航班号:   " ++ get_or flight "flight_no" (Py.u "N/A"));;
  print (Py.u "  机型:     " ++ get_or flight "aircraft" (Py.u "N/A"));;
  print (Py.u "  出发:     " ++ get_or flight "depart_time" (Py.u "N/A")
         ++ Py.u "  " ++ get_or flight "depart_airport" []);;
  print (Py.u "  到达:     " ++ get_or flight "arrive_time" (Py.u "N/A")
         ++ Py.u "  " ++ get_or flight "arrive_airport" []);;
  print (Py.u "  价格:     ¥" ++ get_or flight "price" (Py.u "N/A"));;
  print (Py.u "  准点率:   " ++ get_or flight "on_time_rate" (Py.u "N/A")).

Definition rule : list N := replicate 80 61%N.

(** Step 8 *)
Definition report (tomorrow_str : list N)
    (flights : list (gmap string (list N))) : prog unit :=
  print (nl ++ rule);;
  print (Py.u "✈️  海口(HAK) → 北京(BJS)  |  " ++ tomorrow_str
         ++ Py.u "  |  共找到 " ++ Py.decimal (N.of_nat (length flights))
         ++ Py.u " 个航班");;
  print rule;;
  match flights with
  | _ :: _ => for_each (imap pair flights) (fun '(i, flight) => print_flight i flight)
  | [] =>
    print (nl ++ Py.u "⚠️  未能提取到航班信息，可能原因:");;
    print (Py.u "  1. 页面结构已变化");;
    print (Py.u "  2. 需要人工验证/登录");;
    print (Py.u "  3. 网络问题");;
    print (nl ++ Py.u "💡 建议: 保持浏览器窗口打开，手动观察页面状态")
  end.

(** The body of the top-level [try]: steps 1 to 8. *)
Definition main_sequence `{PyRuntime} (tomorrow_str : list N) : prog unit :=
  print (Py.u "🌐 导航到携程网...");;
  await (Goto (international_url (Py.replace 45 [] tomorrow_str))
              "domcontentloaded" 60000);;
  await (WaitForTimeout 3000);;
  print (Py.u "🔍 检查并处理弹窗...");;
  handle_popups;;
  print (Py.u "✈️ 导航到国内机票搜索页面...");;
  await (Goto (domestic_url (Py.replace 45 [] tomorrow_str))
              "domcontentloaded" 60000);;
  await (WaitForTimeout 3000);;
  handle_popups;;
  print (Py.u "📝 填写搜索信息...");;
  fill_city ("input" +:+ attr "placeholder" "*=" "出发" +:+ ", input"
             +:+ attr "placeholder" "*=" "请输入")
            (Py.u "海口") (Py.u "  出发城市可能已自动填充: ");;
  fill_city ("input" +:+ attr "placeholder" "*=" "到达" +:+ ", input"
             +:+ attr "placeholder" "*=" "目的")
            (Py.u "北京") (Py.u "  到达城市可能已自动填充: ");;
  print (Py.u "🔎 点击搜索按钮...");;
  submit;;
  print (Py.u "⏳ 等待航班结果加载...");;
  await (WaitForTimeout 5000);;
  try_except except_PlaywrightTimeoutError
    (await (WaitForSelector
       (attr "class" "*=" "flight" +:+ ", " +:+ attr "class" "*=" "Flight"
        +:+ ", " +:+ attr "class" "*=" "list-item") 30000))
    (fun _ => print (Py.u "  警告: 未检测到航班列表，尝试继续提取..."));;
  handle_popups;;
  print (Py.u "📊 提取航班信息...");;
  flights ← extract_flight_info;
  report tomorrow_str flights;;
  print (nl ++ Py.u "⏸️  浏览器将在 30 秒后关闭，可手动查看...");;
  await (WaitForTimeout 30000).

(** The [except Exception as e:] of the top-level [try]. *)
Definition on_error (e : exn) : prog unit :=
  print (nl ++ Py.u "❌ 发生错误: " ++ exn_msg e);;
  Write (Traceback e) (Ret tt);;
  let screenshot_path := "error_screenshot.png" in
  await (Screenshot screenshot_path);;
  print (Py.u "📸 已保存错误截图: " ++ Py.u screenshot_path);;
  print (Py.u "⏸️  浏览器将保持打开 60 秒供调试...");;
  await (WaitForTimeout 60000).

(** The [finally:] of the top-level [try]. *)
Definition cleanup : prog unit :=
  await BrowserClose;;
  print (nl ++ Py.u "✅ 完成!").

(** The top-level [try ... except ... finally], entered once the page
    exists. *)
Definition guarded `{PyRuntime} (tomorrow_str : list N) : prog unit :=
  try_finally
    (try_except except_Exception (main_sequence tomorrow_str) on_error)
    cleanup.

(** The body of [async with async_playwright() as p:]. *)
Definition session `{PyRuntime} (tomorrow_str : list N) : prog unit :=
  print (Py.u "🚀 启动浏览器...");;
  await (Launch false 500);;
  await NewContext;;
  await NewPage;;
  guarded tomorrow_str.

Definition raise_or_return {A} (r : result A) : prog A :=
  match r with Ok a => Ret a | Err e => Raise e end.

Definition search_flights `{PyRuntime} : prog unit :=
  now ← await DatetimeNow;
  tomorrow ← raise_or_return (Datetime.add_one_day now);
  let tomorrow_str := Datetime.strftime_Y_m_d tomorrow in
  print (Py.u "📅 查询日期: " ++ tomorrow_str);;
  await PlaywrightStart;;
  try_finally (session tomorrow_str) (await PlaywrightStop).

End Ctrip.

(* ===================================================================== *)
(** * The vocabulary of the specification *)
(* ===================================================================== *)

Module Spec.
Import Playwright.


(** The longest prefix of [s] made of characters of class [p]. *)
Fixpoint leading_run (p : N → bool) (s : list N) : list N :=
  match s with
  | c :: s' => if p c then c :: leading_run p s' else []
  | [] => []
  end.

(** [s] from its first character of class [p] on. *)
Fixpoint skip_to (p : N → bool) (s : list N) : list N :=
  match s with
  | c :: s' => if p c then s else skip_to p s'
  | [] => []
  end.

(** "Strips thousands separators": every comma is dropped. *)
Definition strip_separators (s : list N) : list N :=
  List.filter (fun c => negb (c =? 44)%N) s.

(** "The first run of digits" of a text (empty when it has no digit). *)
Definition first_digit_run `{PyRuntime} (s : list N) : list N :=
  leading_run isdecimal (skip_to isdecimal s).

(** A text of the form [[A-Z]{2}\d{3,4}]: two capitals, then three or
    four decimal digits, and nothing else. *)
Definition is_flight_no `{PyRuntime} (s : list N) : bool :=
  forallb Ctrip.upper (take 2 s) && forallb isdecimal (drop 2 s)
  && (5 <=? length s) && (length s <=? 6).

(** The retention condition: a non-empty flight number or price. *)
Definition retained (flight : gmap string (list N)) : Prop :=
  (∃ v, flight !! "flight_no" = Some v ∧ v ≠ [])
  ∨ (∃ v, flight !! "price" = Some v ∧ v ≠ []).

(** The record for the [i]-th flight number: times from positions [2i]
    and [2i+1], price from position [i], empty when out of range. *)
Definition paired_record (times prices : list (list N)) (i : nat)
    (flight_no : list N) : gmap string (list N) :=
  <["price" := default [] (prices !! i)]>
  (<["arrive_time" := default [] (times !! (i * 2 + 1))]>
  (<["depart_time" := default [] (times !! (i * 2))]>
  (<["flight_no" := flight_no]> ∅))).

(** Both fields present or both absent. *)
Definition together (flight : gmap string (list N)) (k1 k2 : string) : Prop :=
  is_Some (flight !! k1) ↔ is_Some (flight !! k2).

(** The two times go together, and so do the two airports. *)
Definition paired (flight : gmap string (list N)) : Prop :=
  together flight "depart_time" "arrive_time"
  ∧ together flight "depart_airport" "arrive_airport".

(** The calls a submission may make, candidate by candidate: a candidate
    that is not reported visible is passed over; one that is visible is
    clicked; a click that raises is passed over too; a click that
    returns ends the submission. *)
Inductive attempts : list string → list event → Prop :=
| attempts_done : attempts [] []
| attempts_not_visible selector rest r t :
    r ≠ Ok true →
    attempts rest t →
    attempts (selector :: rest)
      (Called (IsVisible (First (Locator selector)) (Some 2000%Z)) r
       :: t)
| attempts_click_raised selector rest e t :
    attempts rest t →
    attempts (selector :: rest)
      (Called (IsVisible (First (Locator selector)) (Some 2000%Z))
              (Ok true)
       :: Called (Click (First (Locator selector)) None) (Err e)
       :: t)
| attempts_clicked selector rest :
    attempts (selector :: rest)
      [Called (IsVisible (First (Locator selector)) (Some 2000%Z))
              (Ok true);
       Called (Click (First (Locator selector)) None) (Ok tt)].

(** The end of every run of the guarded block: the browser is closed,
    and when that returned the last line is printed. *)
Definition closing (E : env) (h : list event) : list event :=
  Called BrowserClose (E h BrowserClose)
  :: match E h BrowserClose with
     | Ok _ => [Wrote (Stdout (Ctrip.nl ++ Py.u "✅ 完成!"))]
     | Err _ => []
     end.




(** The value a read returned, if it returned. *)
Definition ok_of {A} (r : result A) : option A :=
  match r with Ok a => Some a | Err _ => None end.

(** How a read ended when it did not return: with an [Exception]? *)
Definition no_base_exception {A} (r : result A) : bool :=
  match r with Ok _ => true | Err e => except_Exception e end.

(** How the field reads of each card end, the cards taken in turn, each
    read from the history its predecessors left. *)
Fixpoint card_reads `{PyRuntime} (E : env) (elems : list locator)
    (h : list event) : list (result (gmap string (list N))) :=
  match elems with
  | [] => []
  | elem :: rest =>
    (run E (Ctrip.read_card elem) h).2
    :: card_reads E rest (run E (Ctrip.read_card elem) h).1
  end.

End Spec.

(* ===================================================================== *)
(** * A concrete runtime and concrete pages *)
(* ===================================================================== *)

Module Scenario.
Import Playwright Ctrip.

Definition ascii_digit (c : N) : bool := ((48 <=? c) && (c <=? 57))%N.
Definition ascii_space (c : N) : bool :=
  (((9 <=? c) && (c <=? 13)) || ((28 <=? c) && (c <=? 32)))%N.
Definition ascii_alnum (c : N) : bool :=
  (ascii_digit c || ((65 <=? c) && (c <=? 90))
   || ((97 <=? c) && (c <=? 122)))%N.

(** A runtime whose character tables stop at ASCII and whose sets list
    their members in the order [remove_dups] leaves them. *)
#[refine] Instance ascii_runtime : PyRuntime := {|
  isdecimal := ascii_digit;
  isspace := ascii_space;
  isalnum := ascii_alnum;
  set_to_list := remove_dups
|}.
Proof.
  - intros c Hc. unfold ascii_digit.
    destruct (48 <=? c)%N eqn:H1, (c <=? 57)%N eqn:H2; reflexivity.
  - apply NoDup_remove_dups.
  - intros l x. apply elem_of_remove_dups.
Defined.

Definition timeout_error : exn :=
  Exn PlaywrightTimeoutError (Py.u "Timeout 30000ms exceeded.").

(** A results page with 21 flight cards.  Card [i] names the flight
    [CA(1000+i)] and shows its times, airports, price, aircraft and
    punctuality; the price element of card 0 cannot be read in time. *)
Definition card_text (l : locator) : result (option (list N)) :=
  match l with
  | First (Sub (Nth _ i) selector) =>
    if bool_decide (selector = airline_selector)
    then Ok (Some (Py.u "国航 CA" ++ Py.decimal (1000 + N.of_nat i)))
    else if bool_decide (selector = price_selector)
    then match i with
         | 0 => Err timeout_error
         | S _ => Ok (Some (Py.u "¥1,230 起"))
         end
    else if bool_decide (selector = craft_selector)
    then Ok (Some (Py.u " 波音737(中) "))
    else if bool_decide (selector = rate_selector)
    then Ok (Some (Py.u "95%"))
    else Ok None
  | _ => Ok None
  end.

Definition card_texts (l : locator) : list (list N) :=
  match l with
  | Sub _ selector =>
    if bool_decide (selector = time_selector)
    then [Py.u " 08:30 "; Py.u "10:45"; Py.u "+1"]
    else if bool_decide (selector = airport_selector)
    then [Py.u "美兰T2"; Py.u "首都T3"]
    else []
  | _ => []
  end.

Definition many_cards : env := λ _ c,
  match c return result (reply c) with
  | DatetimeNow => Ok (Datetime.Date 2026 11 4)
  | Count (Locator selector) =>
    Ok (if bool_decide (selector = attr "class" "*=" "flight-item")
        then 21 else 0)
  | Count _ => Ok 0
  | IsVisible _ _ => Ok false
  | TextContent l => card_text l
  | AllTextContents l => Ok (card_texts l)
  | Content => Ok []
  | InnerText _ => Ok []
  | _ => Ok tt
  end.

(** The record read from card [i] of that page. *)
Definition card_record (i : nat) : gmap string (list N) :=
  <["on_time_rate" := Py.u "95%"]>
  (<["aircraft" := Py.u "波音737(中)"]>
  (<["price" := Py.u "1230"]>
  (<["arrive_airport" := Py.u "首都T3"]>
  (<["depart_airport" := Py.u "美兰T2"]>
  (<["arrive_time" := Py.u "10:45"]>
  (<["depart_time" := Py.u "08:30"]>
  (<["flight_no" := Py.u "CA" ++ Py.decimal (1000 + N.of_nat i)]>
  (<["airline" := Py.u "国航"]> ∅)))))))).

(** The cards of that page. *)
Definition flight_items : locator :=
  Locator (attr "class" "*=" "flight-item").

Definition launch_error : exn :=
  Exn OtherException (Py.u "Executable doesn't exist").

(** A machine on which the browser cannot be launched. *)
Definition no_browser : env := λ _ c,
  match c return result (reply c) with
  | DatetimeNow => Ok (Datetime.Date 2026 11 4)
  | Launch _ _ => Err launch_error
  | Count _ => Ok 0
  | IsVisible _ _ => Ok false
  | TextContent _ => Ok None
  | AllTextContents _ => Ok []
  | Content => Ok []
  | InnerText _ => Ok []
  | _ => Ok tt
  end.

(** A site that does not answer: every navigation times out. *)
Definition slow_site : env := λ _ c,
  match c return result (reply c) with
  | DatetimeNow => Ok (Datetime.Date 2026 11 4)
  | Goto _ _ _ => Err timeout_error
  | Count _ => Ok 0
  | IsVisible _ _ => Ok false
  | TextContent _ => Ok None
  | AllTextContents _ => Ok []
  | Content => Ok []
  | InnerText _ => Ok []
  | _ => Ok tt
  end.

(** A page on which every candidate is visible and the click on the
    first submit candidate times out. *)
Definition stubborn_button : env := λ _ c,
  match c return result (reply c) with
  | DatetimeNow => Ok (Datetime.Date 2026 11 4)
  | Count _ => Ok 0
  | IsVisible _ _ => Ok true
  | Click l _ =>
    if bool_decide (l = First (Locator (has_text "button" "搜索")))
    then Err timeout_error
    else Ok tt
  | TextContent _ => Ok None
  | AllTextContents _ => Ok []
  | Content => Ok []
  | InnerText _ => Ok []
  | _ => Ok tt
  end.
End Scenario.

(* ===================================================================== *)
(** * More definitions: traces, kinds of calls, failures *)
(* ===================================================================== *)

Module More.
Import Playwright Ctrip.

(** ** The calendar *)

(** The number of days before January 1 of year [y]. *)
Definition days_before_year (y : N) : N :=
  (365 * (y - 1) + (y - 1) / 4 - (y - 1) / 100 + (y - 1) / 400)%N.

(** The number of days of year [y] before the first day of month [m]. *)
Definition days_before_month (y m : N) : N :=
  (nth (N.to_nat (m - 1))
       [0; 31; 59; 90; 120; 151; 181; 212; 243; 273; 304; 334] 0
   + if (2 <? m) && Datetime.is_leap y then 1 else 0)%N.

(** [d.toordinal()]: the number of the day, 0001-01-01 being day 1. *)
Definition toordinal (d : Datetime.datetime) : N :=
  (days_before_year (Datetime.year d)
   + days_before_month (Datetime.year d) (Datetime.month d)
   + Datetime.day d)%N.

(** ** Traces *)

(** What a program adds to the history: in every world and from every
    history, the events of a run satisfy [T]. *)
Definition emits {A} (p : prog A) (T : list event → Prop) : Prop :=
  ∀ (E : env) h, ∃ t, (run E p h).1 = h ++ t ∧ T t.

(** The calls of a trace that are of the kind [kind], in order. *)
Definition calls_where (kind : call → bool) (t : list event) : list call :=
  List.filter kind (calls t).

(** ** The selector cascade *)

(** The calls of the selector cascade: a selector that has no element,
    or whose query raises, is passed over; the first one that has
    elements is announced and ends the cascade with its elements. *)
Inductive cascade : list string → list event → list locator → Prop :=
| cascade_none : cascade [] [] []
| cascade_miss selector rest r t elems :
    (r = Ok 0 ∨ ∃ e, r = Err e) →
    cascade rest t elems →
    cascade (selector :: rest)
      (Called (Count (Locator selector)) r :: t) elems
| cascade_hit selector rest n :
    cascade (selector :: rest)
      [Called (Count (Locator selector)) (Ok (S n));
       Wrote (Stdout (Py.u "  使用选择器: " ++ Py.u selector
                      ++ Py.u ", 找到 " ++ Py.decimal (N.of_nat (S n))
                      ++ Py.u " 个元素"))]
      (Nth (Locator selector) <$> seq 0 (S n)).

(** ** Records *)

(** The field names a structured record may carry. *)
Definition card_fields : list string :=
  ["airline"; "flight_no"; "depart_time"; "arrive_time"; "depart_airport";
   "arrive_airport"; "price"; "aircraft"; "on_time_rate"].

(** What holds of the fields of every record read from a card. *)
Definition well_formed_card `{PyRuntime} (info : gmap string (list N)) : Prop :=
  is_Some (info !! "aircraft")
  ∧ is_Some (info !! "on_time_rate")
  ∧ (is_Some (info !! "airline") ↔ is_Some (info !! "flight_no"))
  ∧ (∀ price, info !! "price" = Some price → forallb isdecimal price = true)
  ∧ (∀ key, is_Some (info !! key) → key ∈ card_fields).

(** A text without any white-space character. *)
Definition no_space `{PyRuntime} (s : list N) : bool :=
  forallb (λ c, negb (isspace c)) s.

(** The field names of a record of the fallback. *)
Definition generic_fields : list string :=
  ["flight_no"; "depart_time"; "arrive_time"; "price"].

(** A text of the form [\d{2}:\d{2}]. *)
Definition is_time `{PyRuntime} (s : list N) : bool :=
  match s with
  | [h1; h2; colon; m1; m2] =>
    isdecimal h1 && isdecimal h2 && (colon =? 58)%N
    && isdecimal m1 && isdecimal m2
  | _ => false
  end.

(** A text of the form [\d{3,5}]. *)
Definition is_price `{PyRuntime} (s : list N) : bool :=
  forallb isdecimal s && (3 <=? length s) && (length s <=? 5).

(** ** Kinds of calls *)

(** The calls that only read the page. *)
Definition reads (c : call) : bool :=
  match c with
  | Content | Count _ | TextContent _ | AllTextContents _ | InnerText _ => true
  | _ => false
  end.

Definition is_inner_text (c : call) : bool :=
  match c with InnerText _ => true | _ => false end.

Definition is_count (c : call) : bool :=
  match c with Count _ => true | _ => false end.

(** The calls [handle_popups] makes: the count behind [all()], the
    visibility check within 1 s, the click within 2 s, the pause of
    500 ms. *)
Definition popup_call (c : call) : bool :=
  match c with
  | Count _ => true
  | IsVisible _ (Some timeout) => (timeout =? 1000)%Z
  | Click _ (Some timeout) => (timeout =? 2000)%Z
  | WaitForTimeout ms => (ms =? 500)%Z
  | _ => false
  end.

(** The calls that start and stop things: the clock, Playwright, the
    browser, its context and its page. *)
Definition lifecycle (c : call) : bool :=
  match c with
  | DatetimeNow | PlaywrightStart | PlaywrightStop | Launch _ _
  | NewContext | NewPage | BrowserClose => true
  | _ => false
  end.

Definition is_screenshot (c : call) : bool :=
  match c with Screenshot _ => true | _ => false end.

(** The calls of the main sequence: work on the page, without starting
    or stopping anything and without a screenshot. *)
Definition main_call (c : call) : bool :=
  negb (lifecycle c) && negb (is_screenshot c).


(** ** Phases *)

(** The calls that mark the phases of the main sequence: navigations,
    the pauses of 3, 5 and 30 seconds, the wait for the flight list and
    the read of the page content. *)
Definition phase_call (c : call) : bool :=
  match c with
  | Goto _ _ _ | Content | WaitForSelector _ _ => true
  | WaitForTimeout ms => bool_decide (ms ∈ [3000; 5000; 30000]%Z)
  | _ => false
  end.

(** The phases of a complete run of the main sequence. *)
Definition phases (tomorrow_str : list N) : list call :=
  [ Goto (international_url (Py.replace 45 [] tomorrow_str))
         "domcontentloaded" 60000;
    WaitForTimeout 3000;
    Goto (domestic_url (Py.replace 45 [] tomorrow_str))
         "domcontentloaded" 60000;
    WaitForTimeout 3000;
    WaitForTimeout 5000;
    WaitForSelector
      (attr "class" "*=" "flight" +:+ ", " +:+ attr "class" "*=" "Flight"
       +:+ ", " +:+ attr "class" "*=" "list-item") 30000;
    Content;
    WaitForTimeout 30000 ].

(** A program whose calls of kind [kind] are the calls [cs], in this
    order: every run makes some first ones of them, and all of them
    when it returns. *)
Definition follows {A} (kind : call → bool) (p : prog A) (cs : list call)
    : Prop :=
  ∀ (E : env) h,
    ∃ t, (run E p h).1 = h ++ t
         ∧ (∃ k, calls_where kind t = take k cs)
         ∧ ∀ a, (run E p h).2 = Ok a → calls_where kind t = cs.

(** A trace in which every navigation that returned is followed at once
    by the pause of 3 seconds. *)
Inductive settled : list event → Prop :=
| settled_nil : settled []
| settled_goto url wait_until timeout r t :
    settled t →
    settled (Called (Goto url wait_until timeout) (Ok tt)
             :: Called (WaitForTimeout 3000) r :: t)
| settled_failed url wait_until timeout e t :
    settled t →
    settled (Called (Goto url wait_until timeout) (Err e) :: t)
| settled_other ev t :
    goto_of ev = None → settled t → settled (ev :: t).

(** ** Failures *)

(** The failures that end the main sequence: a [BaseException] of any
    call; any exception of a navigation, of [page.content()] or of one
    of the three pauses of the main sequence; an exception other than a
    timeout of the wait for the flight list. *)
Definition fatal (c : call) (e : exn) : bool :=
  negb (except_Exception e)
  || match c with
     | Goto _ _ _ | Content => true
     | WaitForTimeout ms => bool_decide (ms ∈ [3000; 5000; 30000]%Z)
     | WaitForSelector _ _ => negb (except_PlaywrightTimeoutError e)
     | _ => false
     end.

(** The history [h1] ends with the call [c], which the world answered
    with the exception [e]. *)
Definition raised_by (E : env) (h1 : list event) (e : exn) (c : call)
    : Prop :=
  ∃ h0, h1 = h0 ++ [Called c (Err e)] ∧ E h0 c = Err e.

(** A program whose every exception is the exception of its last
    call. *)
Definition fails_by_call {A} (p : prog A) : Prop :=
  ∀ (E : env) h h1 e,
    run E p h = (h1, Err e) → ∃ c, raised_by E h1 e c.

(** A program that raises only when its last call failed fatally. *)
Definition fails_fatally {A} (p : prog A) : Prop :=
  ∀ (E : env) h h1 e,
    run E p h = (h1, Err e) → ∃ c, raised_by E h1 e c ∧ fatal c e = true.

(** ** Clicks *)

Definition is_click (ev : event) : bool :=
  match ev with Called (Click _ _) _ => true | _ => false end.

(** A trace in which every click comes right after a visibility check
    of the same element that answered [True]. *)
Inductive checked_clicks : list event → Prop :=
| checked_nil : checked_clicks []
| checked_click elem timeout timeout' r t :
    checked_clicks t →
    checked_clicks (Called (IsVisible elem timeout) (Ok true)
                    :: Called (Click elem timeout') r :: t)
| checked_other ev t :
    is_click ev = false → checked_clicks t → checked_clicks (ev :: t).


(** ** More worlds *)

Definition keyboard_interrupt : exn :=
  Exn BaseExceptionOnly (Py.u "KeyboardInterrupt").

Definition target_closed : exn :=
  Exn OtherException (Py.u "Target page, context or browser has been closed").

(** A run that is interrupted during the first navigation. *)
Definition interrupted : env := λ _ c,
  match c return result (reply c) with
  | DatetimeNow => Ok (Datetime.Date 2026 11 4)
  | Goto _ _ _ => Err keyboard_interrupt
  | Count _ => Ok 0
  | IsVisible _ _ => Ok false
  | TextContent _ => Ok None
  | AllTextContents _ => Ok []
  | Content => Ok []
  | InnerText _ => Ok []
  | _ => Ok tt
  end.

(** A window that is closed by hand during the first navigation: the
    navigation fails and no screenshot can be taken. *)
Definition closed_window : env := λ _ c,
  match c return result (reply c) with
  | DatetimeNow => Ok (Datetime.Date 2026 11 4)
  | Goto _ _ _ => Err target_closed
  | Screenshot _ => Err target_closed
  | Count _ => Ok 0
  | IsVisible _ _ => Ok false
  | TextContent _ => Ok None
  | AllTextContents _ => Ok []
  | Content => Err target_closed
  | InnerText _ => Err target_closed
  | _ => Ok tt
  end.

(** A page with one close button, which is visible. *)
Definition one_popup : env := λ _ c,
  match c return result (reply c) with
  | DatetimeNow => Ok (Datetime.Date 2026 11 4)
  | Count (Locator selector) =>
    Ok (if bool_decide (selector = (popup_handlers !!! 0).1) then 1 else 0)
  | Count _ => Ok 0
  | IsVisible (Nth _ _) _ => Ok true
  | IsVisible _ _ => Ok false
  | TextContent _ => Ok None
  | AllTextContents _ => Ok []
  | Content => Ok []
  | InnerText _ => Ok (Py.u "HU7181 08:30 10:45 ¥1230起 CA1352 14:45")
  | _ => Ok tt
  end.
End More.

(* ===================================================================== *)
(** * Reasoning about runs *)
(* ===================================================================== *)

Module RunFacts.
Import Playwright.

Lemma run_bind {A B} (E : env) (p : prog A) (f : A → prog B) h :
  run E (p ≫= f) h =
    match run E p h with
    | (h', Ok a) => run E (f a) h'
    | (h', Err e) => (h', Err e)
    end.
Proof.
  revert h. induction p as [a|e|o k IH|c k IH]; intros h; simpl; auto.
Qed.

Lemma run_try_except {A} (E : env) catches (p : prog A) handler h :
  run E (try_except catches p handler) h =
    match run E p h with
    | (h', Ok a) => (h', Ok a)
    | (h', Err e) => if catches e then run E (handler e) h' else (h', Err e)
    end.
Proof.
  revert h. induction p as [a|e|o k IH|c k IH]; intros h; simpl; auto.
  destruct (catches e); reflexivity.
Qed.

Lemma run_try_finally {A} (E : env) (p : prog A) cleanup h :
  run E (try_finally p cleanup) h =
    match run E p h with
    | (h', r) =>
      match run E cleanup h' with
      | (h'', Ok _) => (h'', r)
      | (h'', Err e) => (h'', Err e)
      end
    end.
Proof.
  revert h. induction p as [a|e|o k IH|c k IH]; intros h; simpl; auto.
  - change (bind cleanup (λ _, Ret a)) with (cleanup ≫= (λ _, Ret a)).
    rewrite run_bind. destruct (run E cleanup h) as [h' [[]|e]]; reflexivity.
  - change (bind cleanup (λ _, Raise e))
      with (cleanup ≫= (λ _ : unit, @Raise A e)).
    rewrite run_bind. destruct (run E cleanup h) as [h' [[]|e']]; reflexivity.
Qed.

Lemma run_await (E : env) c h :
  run E (await c) h = (h ++ [Called c (E h c)], E h c).
Proof. simpl. destruct (E h c); reflexivity. Qed.

Lemma run_print (E : env) line h :
  run E (print line) h = (h ++ [Wrote (Stdout line)], Ok tt).
Proof. reflexivity. Qed.

(** A run only adds to the history. *)
Lemma run_extends {A} (E : env) (p : prog A) h :
  ∃ t, (run E p h).1 = h ++ t.
Proof.
  revert h. induction p as [a|e|o k IH|c k IH]; intros h; simpl.
  - exists []. by rewrite app_nil_r.
  - exists []. by rewrite app_nil_r.
  - destruct (IH (h ++ [Wrote o])) as [t ->]. eexists. by rewrite <- app_assoc.
  - destruct (IH (E h c) (h ++ [Called c (E h c)])) as [t ->].
    eexists. by rewrite <- app_assoc.
Qed.

Lemma calls_only_bind {A B} P (p : prog A) (f : A → prog B) :
  calls_only P p → (∀ a, calls_only P (f a)) → calls_only P (p ≫= f).
Proof.
  intros Hp Hf. induction Hp; simpl; try by constructor.
  apply Hf.
Qed.

Lemma calls_only_try_except {A} P catches (p : prog A) handler :
  calls_only P p → (∀ e, calls_only P (handler e)) →
  calls_only P (try_except catches p handler).
Proof.
  intros Hp Hf. induction Hp; simpl; try by constructor.
  destruct (catches e); [apply Hf|constructor].
Qed.

Lemma calls_only_try_finally {A} P (p : prog A) cleanup :
  calls_only P p → calls_only P cleanup →
  calls_only P (try_finally p cleanup).
Proof.
  intros Hp Hf. induction Hp; simpl; try by constructor.
  - apply (calls_only_bind P cleanup); [done|constructor].
  - apply (calls_only_bind P cleanup); [done|constructor].
Qed.

Lemma calls_only_await P c : P c → calls_only P (await c).
Proof. intros. constructor; [done|]. intros [v|e]; constructor. Qed.

Lemma calls_only_print P line : calls_only P (print line).
Proof. repeat constructor. Qed.

Lemma calls_only_for_each {X} P (l : list X) body :
  (∀ x, calls_only P (body x)) → calls_only P (for_each l body).
Proof.
  intros Hb. induction l as [|x l IH]; simpl; [constructor|].
  by apply (calls_only_bind P (body x)).
Qed.

Lemma returns_only_weaken {A} (p : prog A) (Q R : A → Prop) :
  returns_only p Q → (∀ a, Q a → R a) → returns_only p R.
Proof.
  intros Hp HQR E h. specialize (Hp E h).
  destruct (run E p h).2; auto.
Qed.

Lemma returns_only_ret {A} (a : A) (Q : A → Prop) :
  Q a → returns_only (Ret a) Q.
Proof. intros HQ E h. exact HQ. Qed.

Lemma returns_only_bind {A B} (p : prog A) (f : A → prog B) Q R :
  returns_only p Q → (∀ a, Q a → returns_only (f a) R) →
  returns_only (p ≫= f) R.
Proof.
  intros Hp Hf E h. rewrite run_bind. specialize (Hp E h).
  destruct (run E p h) as [h' [a|e]]; simpl in *; [|done].
  apply (Hf a Hp).
Qed.

Lemma returns_only_try_except {A} catches (p : prog A) handler Q :
  returns_only p Q → (∀ e, returns_only (handler e) Q) →
  returns_only (try_except catches p handler) Q.
Proof.
  intros Hp Hf E h. rewrite run_try_except. specialize (Hp E h).
  destruct (run E p h) as [h' [a|e]]; simpl in *; [done|].
  destruct (catches e); [apply Hf|done].
Qed.

Lemma returns_only_any {A} (p : prog A) : returns_only p (λ _, True).
Proof. intros E h. by destruct (run E p h).2. Qed.

Lemma never_raises_ret {A} (a : A) : never_raises (Ret a).
Proof. intros E h. by exists a. Qed.

Lemma never_raises_print line : never_raises (print line).
Proof. intros E h. by exists tt. Qed.

Lemma never_raises_bind {A B} (p : prog A) (f : A → prog B) :
  never_raises p → (∀ a, never_raises (f a)) → never_raises (p ≫= f).
Proof.
  intros Hp Hf E h. rewrite run_bind. destruct (Hp E h) as [a Ha].
  destruct (run E p h) as [h' r]; simpl in *; subst r. apply Hf.
Qed.

(** A bare [except:] whose handler returns makes its [try] harmless. *)
Lemma never_raises_try_except_any {A} (p : prog A) handler :
  (∀ e, never_raises (handler e)) →
  never_raises (try_except except_any p handler).
Proof.
  intros Hf E h. rewrite run_try_except.
  destruct (run E p h) as [h' [a|e]]; simpl; [by exists a|apply Hf].
Qed.

Lemma never_raises_for_each {X} (l : list X) body :
  (∀ x, never_raises (body x)) → never_raises (for_each l body).
Proof.
  intros Hb. induction l as [|x l IH]; simpl; [apply never_raises_ret|].
  by apply (never_raises_bind (body x)).
Qed.

Lemma run_all (E : env) l h :
  run E (all l) h =
    (h ++ [Called (Count l) (E h (Count l))],
     match E h (Count l) with
     | Ok n => Ok (Nth l <$> seq 0 n)
     | Err e => Err e
     end).
Proof. unfold all. simpl. by destruct (E h (Count l)). Qed.

Lemma clicks_app h t : clicks (h ++ t) = clicks h ++ clicks t.
Proof. unfold clicks. apply omap_app. Qed.









(** One awaited call: rewrite its run, whatever type the answer was
    given in the program text. *)
Ltac step_await :=
  match goal with
  | |- context [@run ?A ?E (await ?c) ?h] =>
    change (@run A E (await c) h) with (@run (reply c) E (await c) h);
    rewrite (run_await E c h)
  end.

End RunFacts.

(* ===================================================================== *)
(** * Facts about the regular expressions *)
(* ===================================================================== *)

Module ReFacts.
Import Re.

(** Whatever [rep] returns, it got from its continuation, called after
    a prefix of between [lo] and [hi] characters of the class. *)
Lemma rep_sound p lo hi prev s k f :
  rep p lo hi prev s k = Some f →
  ∃ n b, lo ≤ n ∧ (∀ m, hi = Some m → n ≤ m) ∧ n ≤ length s
         ∧ Forall (λ c, p c = true) (take n s)
         ∧ k (Cursor b (drop n s)) = Some f.
Proof.
  revert lo hi prev. induction s as [|c s IH]; intros lo hi prev Hrep.
  - simpl in Hrep. destruct lo; [|done].
    exists 0, prev. repeat split; auto with lia.
  - simpl in Hrep.
    assert (Hstop :
      match lo with 0 => k (Cursor prev (c :: s)) | S _ => None end = Some f →
      ∃ n b, lo ≤ n ∧ (∀ m, hi = Some m → n ≤ m) ∧ n ≤ length (c :: s)
         ∧ Forall (λ c, p c = true) (take n (c :: s))
         ∧ k (Cursor b (drop n (c :: s))) = Some f).
    { destruct lo; [|done]. intros Hk. exists 0, prev.
      repeat split; simpl; auto with lia. }
    destruct (p c && may_repeat hi) eqn:Hpc; [|by apply Hstop].
    apply andb_prop in Hpc as [Hp Hhi].
    destruct (rep p (pred lo) (pred <$> hi) (Some c) s k) as [f'|] eqn:Hrec;
      [|by apply Hstop].
    injection Hrep as <-.
    destruct (IH _ _ _ Hrec) as (n & b & Hlo & Hm & Hlen & Hall & Hk).
    exists (S n), b. repeat split; simpl; auto with lia.
    + intros m ->. destruct m; [done|]. specialize (Hm m eq_refl). lia.
Qed.

(** With a continuation that cannot fail and no upper bound, [rep] takes
    the whole leading run. *)
Lemma rep_greedy p lo prev s k :
  (∀ c, k c ≠ None) →
  lo ≤ length (Spec.leading_run p s) →
  ∃ b, rep p lo None prev s k
       = k (Cursor b (drop (length (Spec.leading_run p s)) s)).
Proof.
  intros Hk. revert lo prev. induction s as [|c s IH]; intros lo prev Hlo.
  - simpl in *. exists prev. destruct lo; [done|lia].
  - simpl in *. destruct (p c) eqn:Hp; simpl in *.
    + destruct (IH (pred lo) (Some c)) as [b Hb]; [lia|].
      exists b. rewrite Hb.
      destruct (k _) eqn:Hkc; [done|by apply Hk in Hkc].
    + exists prev. destruct lo; [done|lia].
Qed.

(** A leading run shorter than [lo] gives no match. *)
Lemma rep_short p lo hi prev s k :
  length (Spec.leading_run p s) < lo → rep p lo hi prev s k = None.
Proof.
  revert lo hi prev. induction s as [|c s IH]; intros lo hi prev Hlo.
  - simpl in *. destruct lo; [lia|done].
  - simpl in *. destruct (p c) eqn:Hp; simpl in *.
    + destruct (may_repeat hi).
      * rewrite IH by lia. destruct lo; [lia|done].
      * destruct lo; [lia|done].
    + destruct lo; [lia|done].
Qed.

Lemma take_leading_run p s :
  take (length (Spec.leading_run p s)) s = Spec.leading_run p s.
Proof.
  induction s as [|c s IH]; simpl; [done|].
  destruct (p c); simpl; [by rewrite IH|done].
Qed.

Lemma match_at_digits `{PyRuntime} prev s :
  match_at (Grp (Rep isdecimal 1 None)) (Cursor prev s) =
    rep isdecimal 1 None prev s
      (λ c', Some (c', Some (take (length s - length (ahead c')) s))).
Proof. reflexivity. Qed.

Lemma length_leading_run p s : length (Spec.leading_run p s) ≤ length s.
Proof.
  rewrite <- (take_leading_run p s) at 1. rewrite length_take. lia.
Qed.

(** [re.search] with [(\d+)] finds the first run of digits. *)
Lemma search_digits `{PyRuntime} prev s :
  match search_from (Grp (Rep isdecimal 1 None)) prev s with
  | Some f => group1 f = Spec.first_digit_run s
  | None => Spec.first_digit_run s = []
  end.
Proof.
  revert prev. induction s as [|c s IH]; intros prev.
  - reflexivity.
  - unfold Spec.first_digit_run. cbn [search_from Spec.skip_to].
    rewrite match_at_digits. destruct (isdecimal c) eqn:Hc.
    + destruct (rep_greedy isdecimal 1 prev (c :: s)
        (λ c', Some (c', Some (take (length (c :: s) - length (ahead c')) (c :: s)))))
        as [b Hb]; [done|simpl; rewrite Hc; simpl; lia|].
      rewrite Hb. unfold group1. cbn [snd ahead default].
      rewrite length_drop.
      pose proof (length_leading_run isdecimal (c :: s)).
      replace (length (c :: s)
               - (length (c :: s)
                  - length (Spec.leading_run isdecimal (c :: s))))
        with (length (Spec.leading_run isdecimal (c :: s))) by lia.
      apply take_leading_run.
    + rewrite rep_short; [|simpl; rewrite Hc; simpl; lia].
      apply IH.
Qed.

Lemma replace_comma s : Py.replace 44 [] s = Spec.strip_separators s.
Proof.
  unfold Py.replace, Spec.strip_separators.
  induction s as [|c s IH]; simpl; [done|].
  destruct (c =? 44)%N; simpl; by rewrite IH.
Qed.

(** Every item of [findall] is the group of some match. *)
Lemma scan_group `{PyRuntime} r skip prev s x :
  x ∈ scan r skip prev s → ∃ c f, match_at r c = Some f ∧ x = group1 f.
Proof.
  revert skip prev. induction s as [|ch s IH]; intros skip prev Hx.
  - destruct skip; simpl in Hx; [|by apply elem_of_nil in Hx].
    destruct (match_at r (Cursor prev [])) as [f|] eqn:Hm;
      [|by apply elem_of_nil in Hx].
    apply list_elem_of_singleton in Hx. eauto.
  - destruct skip; simpl in Hx; [|by eapply IH].
    destruct (match_at r (Cursor prev (ch :: s))) as [f|] eqn:Hm; [|by eapply IH].
    apply elem_of_cons in Hx as [->|Hx]; [eauto|by eapply IH].
Qed.

(** What a match of the flight pattern captures. *)
Lemma flight_pattern_group `{PyRuntime} c f :
  match_at Ctrip.flight_pattern c = Some f →
  Spec.is_flight_no (group1 f) = true.
Proof.
  unfold match_at, Ctrip.flight_pattern. simpl exec.
  destruct (at_boundary c); [|done]. intros Hm.
  apply rep_sound in Hm as (n1 & b1 & Hlo1 & Hhi1 & Hlen1 & Hall1 & Hm).
  specialize (Hhi1 2 eq_refl). assert (n1 = 2) as -> by lia. simpl in Hm.
  apply rep_sound in Hm as (n2 & b2 & Hlo2 & Hhi2 & Hlen2 & Hall2 & Hm).
  specialize (Hhi2 4 eq_refl). simpl in Hm.
  destruct (at_boundary _); [|done]. injection Hm as <-.
  unfold group1. simpl.
  rewrite length_drop in Hlen2. rewrite !length_drop.
  replace (length (ahead c) - (length (ahead c) - 2 - n2)) with (2 + n2) by lia.
  unfold Spec.is_flight_no.
  rewrite take_take, <- take_drop_commute, length_take.
  replace (2 `min` (2 + n2)) with 2 by lia.
  replace ((2 + n2) `min` length (ahead c)) with (2 + n2) by lia.
  apply andb_true_intro; split; [apply andb_true_intro; split|];
    [apply andb_true_intro; split|..].
  - apply forallb_forall. intros x Hx. apply list_elem_of_In in Hx.
    by apply (proj1 (Forall_forall _ _) Hall1).
  - apply forallb_forall. intros x Hx. apply list_elem_of_In in Hx.
    by apply (proj1 (Forall_forall _ _) Hall2).
  - apply Nat.leb_le. lia.
  - apply Nat.leb_le. lia.
Qed.
End ReFacts.

(* ===================================================================== *)
(** * The fallback extraction and the price *)
(* ===================================================================== *)

Module FallbackFacts.
Import Playwright Ctrip RunFacts.

Lemma item_or_empty_ok xs i : item_or_empty xs i = Ok (default [] (xs !! i)).
Proof.
  unfold item_or_empty, index. case_bool_decide as Hi.
  - destruct (lookup_lt_is_Some_2 xs i Hi) as [x ->]. done.
  - rewrite lookup_ge_None_2 by lia. done.
Qed.

Lemma generic_record_ok times prices i flight_no :
  generic_record times prices i flight_no
  = Ok (Spec.paired_record times prices i flight_no).
Proof.
  unfold generic_record. rewrite !item_or_empty_ok. reflexivity.
Qed.

Lemma build_records_ok times prices i items flights :
  build_records times prices i items flights
  = (flights ++ imap (λ j, Spec.paired_record times prices (i + j)) items, None).
Proof.
  revert i flights. induction items as [|x items IH]; intros i flights; simpl.
  - by rewrite app_nil_r.
  - rewrite generic_record_ok, IH, <- app_assoc. simpl.
    rewrite Nat.add_0_r. do 3 f_equal.
    apply imap_ext. intros j y _. simpl. f_equal. lia.
Qed.

Lemma generic_records_ok `{PyRuntime} text :
  generic_records text
  = (imap (Spec.paired_record (Re.findall time_pattern text)
                         (Re.findall price_pattern text))
          (take 10 (set_to_list (Re.findall flight_pattern text))), None).
Proof. unfold generic_records. rewrite build_records_ok. reflexivity. Qed.

Lemma set_to_list_length `{PyRuntime} l :
  length (set_to_list l) = length (remove_dups l).
Proof.
  apply Permutation_length, NoDup_Permutation.
  - apply set_to_list_NoDup.
  - apply NoDup_remove_dups.
  - intros x. by rewrite set_to_list_elem, elem_of_remove_dups.
Qed.

Lemma run_extract_generic `{PyRuntime} (E : env) h :
  (run E extract_generic_flight_info h).2 =
    match E h (InnerText "body") with
    | Ok text => Ok (generic_records text).1
    | Err e => if except_Exception e then Ok [] else Err e
    end.
Proof.
  unfold extract_generic_flight_info. cbn [run].
  destruct (E h (InnerText "body")) as [text|e].
  - rewrite generic_records_ok. reflexivity.
  - destruct (except_Exception e); reflexivity.
Qed.


(** C3: for every body text the fallback returns at most 10 records and
    no more records than the text has distinct flight-number matches;
    when the body text cannot be read it returns none, or (for a
    [BaseException]) raises. *)
Theorem fallback_at_most_ten `{PyRuntime} (E : env) h :
  match (run E extract_generic_flight_info h).2, E h (InnerText "body") with
  | Ok flights, Ok text =>
    length flights ≤ 10
    ∧ length flights ≤ length (remove_dups (Re.findall flight_pattern text))
  | Ok flights, Err _ => flights = []
  | Err _, Ok _ => False
  | Err e, Err e' => e = e' ∧ except_Exception e = false
  end.
Proof.
  rewrite run_extract_generic.
  destruct (E h (InnerText "body")) as [text|e].
  - rewrite generic_records_ok. cbn [fst].
    rewrite length_imap, length_take, set_to_list_length. lia.
  - destruct (except_Exception e) eqn:He; done.
Qed.

(** C4: the record built for the [i]-th retained flight number takes its
    departure time from position [2i] of the time matches, its arrival
    time from position [2i+1] and its price from position [i] of the
    price matches, each the empty string when the position is out of
    range; no [IndexError] ends the loop, whatever the lengths. *)
Theorem fallback_pairing `{PyRuntime} text i flight_no :
  take 10 (set_to_list (Re.findall flight_pattern text)) !! i = Some flight_no →
  ∃ flights flight,
    generic_records text = (flights, None)
    ∧ flights !! i = Some flight
    ∧ flight !! "flight_no" = Some flight_no
    ∧ flight !! "depart_time"
      = Some (default [] (Re.findall time_pattern text !! (2 * i)))
    ∧ flight !! "arrive_time"
      = Some (default [] (Re.findall time_pattern text !! (2 * i + 1)))
    ∧ flight !! "price"
      = Some (default [] (Re.findall price_pattern text !! i)).
Proof.
  intros Hi. eexists _, _. split; [apply generic_records_ok|].
  split; [by rewrite list_lookup_imap, Hi|].
  unfold Spec.paired_record. replace (i * 2) with (2 * i) by lia.
  repeat split; by simplify_map_eq.
Qed.

Lemma fallback_pairing_witness :
  let rt := Scenario.ascii_runtime in
  let text := Py.u "HU7181 08:30 10:45 ¥1230起 CA1352 14:45" in
  let times := Re.findall (H := rt) (time_pattern (H := rt)) text in
  let prices := Re.findall (H := rt) (price_pattern (H := rt)) text in
  ∃ (flights : list (gmap string (list N))) (flight : gmap string (list N)),
    generic_records (H := rt) text = (flights, None)
    ∧ flights !! 0 = Some flight
    ∧ flight !! "flight_no" = Some (Py.u "HU7181")
    ∧ flight !! "depart_time" = Some (default [] (times !! (2 * 0)))
    ∧ flight !! "arrive_time" = Some (default [] (times !! (2 * 0 + 1)))
    ∧ flight !! "price" = Some (default [] (prices !! 0)).
Proof.
  intros rt text times prices.
  apply (fallback_pairing (H := rt) text 0 (Py.u "HU7181")).
  vm_compute. reflexivity.
Defined.

(** C9: every record the fallback returns has a [flight_no] of the form
    [[A-Z]{2}\d{3,4}], which is not empty, so the record passes the test
    of the structured extraction for a non-empty flight number or
    price. *)
Theorem fallback_records_have_flight_no `{PyRuntime} (E : env) h :
  match (run E extract_generic_flight_info h).2 with
  | Ok flights =>
    Forall (λ flight : gmap string (list N),
              ∃ flight_no, flight !! "flight_no" = Some flight_no
                ∧ Spec.is_flight_no flight_no = true
                ∧ flight_no ≠ []
                ∧ has_basic_info flight = true
                ∧ Spec.retained flight) flights
  | Err _ => True
  end.
Proof.
  rewrite run_extract_generic.
  destruct (E h (InnerText "body")) as [text|e];
    [|by destruct (except_Exception e)].
  rewrite generic_records_ok. cbn [fst]. apply Forall_forall.
  intros flight Hin. apply list_elem_of_lookup in Hin as [i Hi].
  rewrite list_lookup_imap in Hi.
  destruct (take 10 _ !! i) as [flight_no|] eqn:Hfn; [|done].
  injection Hi as <-.
  assert (Hshape : Spec.is_flight_no flight_no = true).
  { apply list_elem_of_lookup_2, subseteq_take in Hfn.
    rewrite set_to_list_elem in Hfn.
    apply ReFacts.scan_group in Hfn as (c & f & Hm & ->).
    by apply ReFacts.flight_pattern_group in Hm. }
  assert (Hne : flight_no ≠ []).
  { intros ->. discriminate Hshape. }
  assert (Hget : Spec.paired_record (Re.findall time_pattern text)
            (Re.findall price_pattern text) i flight_no !! "flight_no"
          = Some flight_no) by (unfold Spec.paired_record; by simplify_map_eq).
  exists flight_no. repeat split; try done.
  - unfold has_basic_info. rewrite Hget. by destruct flight_no.
  - left. eauto.
Qed.

(** C5: the price of a card is the first run of digits of the price text
    without its commas; for the text [¥1,230 起] it is [1230]. *)
Theorem price_parsing `{PyRuntime} :
  (∀ price_elem,
     parse_price price_elem
     = Spec.first_digit_run (Spec.strip_separators price_elem))
  ∧ parse_price (Py.u "¥1,230 起") = Py.u "1230".
Proof.
  assert (Hall : ∀ price_elem, parse_price price_elem
     = Spec.first_digit_run (Spec.strip_separators price_elem)).
  { intros price_elem. unfold parse_price, Re.search.
    rewrite ReFacts.replace_comma.
    pose proof (ReFacts.search_digits None (Spec.strip_separators price_elem)) as Hs.
    by destruct (Re.search_from _ _ _). }
  split; [done|]. rewrite Hall.
  change (Spec.strip_separators (Py.u "¥1,230 起"))
    with [165; 49; 50; 51; 48; 32; 36215]%N.
  unfold Spec.first_digit_run.
  cbn [Spec.skip_to]. rewrite !isdecimal_latin1 by done.
  change ((48 <=? 165)%N && (165 <=? 57)%N) with false.
  change ((48 <=? 49)%N && (49 <=? 57)%N) with true.
  cbn [Spec.leading_run]. rewrite !isdecimal_latin1 by done.
  reflexivity.
Qed.

End FallbackFacts.

(* ===================================================================== *)
(** * The structured extraction *)
(* ===================================================================== *)

Module StructuredFacts.
Import Playwright Ctrip RunFacts.

Lemma read_card_paired `{PyRuntime} elem : returns_only (read_card elem) Spec.paired.
Proof.
  unfold read_card.
  repeat (apply returns_only_bind with (Q := λ _, True);
          [apply returns_only_any|intros ? _]).
  apply returns_only_ret.
  unfold Spec.paired, Spec.together.
  destruct a as [[|? ?]|], a0 as [|? [|? ?]], a1 as [|? [|? ?]],
           a2 as [[|? ?]|];
    repeat (rewrite lookup_insert_eq || rewrite lookup_insert_ne by done
            || rewrite lookup_empty);
    split; split; intros [? ?]; by eauto.
Qed.

Lemma fallback_paired `{PyRuntime} :
  returns_only extract_generic_flight_info (Forall Spec.paired).
Proof.
  intros E h. rewrite FallbackFacts.run_extract_generic.
  destruct (E h (InnerText "body")) as [text|e].
  - rewrite FallbackFacts.generic_records_ok. cbn [fst].
    apply Forall_forall. intros flight Hin.
    apply list_elem_of_lookup in Hin as [i Hi].
    rewrite list_lookup_imap in Hi.
    destruct (take 10 _ !! i) as [flight_no|]; [|done]. injection Hi as <-.
    unfold Spec.paired, Spec.together, Spec.paired_record.
    repeat (rewrite lookup_insert_eq || rewrite lookup_insert_ne by done
            || rewrite lookup_empty).
    split; split; intros [? ?]; by eauto.
  - destruct (except_Exception e); [constructor|done].
Qed.

Lemma extract_card_paired `{PyRuntime} flights elem :
  Forall Spec.paired flights →
  returns_only (extract_card flights elem) (Forall Spec.paired).
Proof.
  intros Hfl. unfold extract_card.
  apply returns_only_try_except; [|intros e; by apply returns_only_ret].
  apply returns_only_bind with (Q := Spec.paired); [apply read_card_paired|].
  intros info Hinfo. destruct (has_basic_info info); apply returns_only_ret.
  - apply Forall_app. split; [done|]. by constructor.
  - done.
Qed.

Lemma extract_cards_paired `{PyRuntime} elems flights :
  Forall Spec.paired flights →
  returns_only (extract_cards elems flights) (Forall Spec.paired).
Proof.
  revert flights. induction elems as [|elem rest IH]; intros flights Hfl.
  - by apply returns_only_ret.
  - cbn [extract_cards].
    apply returns_only_bind with (Q := Forall Spec.paired);
      [by apply extract_card_paired|apply IH].
Qed.

(** C10: in every record the structured extraction produces, and in
    every record [extract_flight_info] returns, [depart_time] and
    [arrive_time] are both present or both absent, and so are
    [depart_airport] and [arrive_airport]. *)
Theorem times_and_airports_come_in_pairs `{PyRuntime} :
  returns_only extract_structured (Forall Spec.paired)
  ∧ returns_only extract_flight_info (Forall Spec.paired).
Proof.
  assert (Hs : returns_only extract_structured (Forall Spec.paired)).
  { unfold extract_structured.
    apply returns_only_bind with (Q := λ _, True); [apply returns_only_any|].
    intros _ _.
    apply returns_only_bind with (Q := λ _, True); [apply returns_only_any|].
    intros elems _. by apply extract_cards_paired. }
  split; [done|]. unfold extract_flight_info.
  apply returns_only_bind with (Q := Forall Spec.paired); [done|].
  intros [|flight flights] Hfl.
  - apply returns_only_bind with (Q := λ _, True); [apply returns_only_any|].
    intros _ _. apply fallback_paired.
  - by apply returns_only_ret.
Qed.

Lemma has_basic_info_retained (flight : gmap string (list N)) :
  has_basic_info flight = true ↔ Spec.retained flight.
Proof.
  unfold has_basic_info, Spec.retained, Py.truthy. split.
  - intros Hb. apply orb_prop in Hb as [Hb|Hb]; [left|right].
    + destruct (flight !! "flight_no") as [[|c v]|]; try done. by eexists.
    + destruct (flight !! "price") as [[|c v]|]; try done. by eexists.
  - intros [(v & -> & Hv)|(v & -> & Hv)].
    + by destruct v.
    + destruct v; [done|]. apply orb_true_r.
Qed.

Lemma run_extract_card `{PyRuntime} (E : env) flights elem h :
  run E (extract_card flights elem) h =
    match run E (read_card elem) h with
    | (h', Ok info) =>
      (h', Ok (if has_basic_info info then flights ++ [info] else flights))
    | (h', Err e) => (h', if except_Exception e then Ok flights else Err e)
    end.
Proof.
  unfold extract_card. rewrite run_try_except, run_bind.
  destruct (run E (read_card elem) h) as [h' [info|e]].
  - by destruct (has_basic_info info).
  - by destruct (except_Exception e).
Qed.

Lemma run_extract_cards `{PyRuntime} (E : env) elems flights h :
  forallb Spec.no_base_exception (Spec.card_reads E elems h) = true →
  (run E (extract_cards elems flights) h).2
  = Ok (flights ++ List.filter has_basic_info
                     (omap Spec.ok_of (Spec.card_reads E elems h))).
Proof.
  revert flights h. induction elems as [|elem rest IH]; intros flights h Hex.
  - simpl. by rewrite app_nil_r.
  - cbn [extract_cards Spec.card_reads forallb] in *.
    apply andb_prop in Hex as [He Hex].
    rewrite run_bind, run_extract_card.
    destruct (run E (read_card elem) h) as [h' [info|e]]; cbn [fst snd] in *.
    + rewrite IH by done. cbn [omap Spec.ok_of]. simpl.
      destruct (has_basic_info info); by rewrite <- ?app_assoc.
    + simpl in He. rewrite He. rewrite IH by done. done.
Qed.

Lemma find_flight_elements_returns candidates :
  never_raises (find_flight_elements candidates).
Proof.
  induction candidates as [|selector rest IH]; [apply never_raises_ret|].
  cbn [find_flight_elements]. apply never_raises_bind.
  - apply never_raises_try_except_any. intros e. apply never_raises_ret.
  - intros [elements|]; [apply never_raises_ret|apply IH].
Qed.

(** C1, as the code has it: the cascade always yields a list of cards;
    of these the first 20 are read in turn, and the records returned are
    exactly the records of those cards whose reads all returned and
    whose flight number or price is not empty, in the order of the cards
    (a card one of whose reads raises an [Exception] gives no record). *)
Theorem structured_keeps_cards_with_basic_info `{PyRuntime} (E : env) h :
  let found :=
    run E (find_flight_elements selectors) (run E (await Content) h).1 in
  ∃ flight_elements,
    found.2 = Ok flight_elements
    ∧ (∀ info, has_basic_info info = true ↔ Spec.retained info)
    ∧ ∀ page_content, E h Content = Ok page_content →
      let reads := Spec.card_reads E (take 20 flight_elements) found.1 in
      forallb Spec.no_base_exception reads = true →
      (run E extract_structured h).2
      = Ok (List.filter has_basic_info (omap Spec.ok_of reads)).
Proof.
  intros found.
  destruct (find_flight_elements_returns selectors E
              (run E (await Content) h).1) as [elems Helems].
  exists elems. split; [done|]. split; [apply has_basic_info_retained|].
  intros page_content Hcontent reads Hreads.
  unfold extract_structured. rewrite run_bind, run_await, Hcontent.
  rewrite run_bind. rewrite run_await, Hcontent in Helems. cbn [fst] in Helems.
  subst reads found. rewrite run_await, Hcontent in Hreads. cbn [fst] in Hreads.
  rewrite run_await, Hcontent. cbn [fst].
  destruct (run E (find_flight_elements selectors) _) as [h2 r].
  cbn [fst snd] in *. subst r.
  by rewrite run_extract_cards.
Qed.

Lemma structured_keeps_cards_witness :
  (run Scenario.many_cards (extract_structured (H := Scenario.ascii_runtime)) []).2
  = Ok (Scenario.card_record <$> seq 1 19).
Proof.
  destruct (structured_keeps_cards_with_basic_info
              (H := Scenario.ascii_runtime) Scenario.many_cards [])
    as (elems & Hfound & _ & Hrun).
  assert (elems = Nth Scenario.flight_items <$> seq 0 21) as ->.
  { assert (Hc : (run Scenario.many_cards (find_flight_elements selectors)
                   (run Scenario.many_cards (await Content) []).1).2
                 = Ok (Nth Scenario.flight_items <$> seq 0 21)) by compute_done.
    rewrite Hc in Hfound. by injection Hfound. }
  rewrite (Hrun [] eq_refl); [|compute_done].
  compute_done.
Defined.

(** C1, as it is stated, fails on a page with 21 cards: card 20 is among
    the matched cards and all its reads return, giving a record with a
    flight number and a price, but the record is not in the output; and
    the flight number of card 0 was read, yet its price read raised and
    no record of the output carries that flight number. *)
Lemma card_beyond_twenty_is_dropped :
  let E := Scenario.many_cards in
  let rt := Scenario.ascii_runtime in
  let elems := Nth Scenario.flight_items <$> seq 0 21 in
  let flights := Scenario.card_record <$> seq 1 19 in
  let elem := Nth Scenario.flight_items 20 in
  let info := Scenario.card_record 20 in
  let elem0 := Nth Scenario.flight_items 0 in
  (run E (find_flight_elements selectors) []).2 = Ok elems
  ∧ (run E (extract_structured (H := rt)) []).2 = Ok flights
  ∧ (run E (extract_flight_info (H := rt)) []).2 = Ok flights
  ∧ (elem ∈ elems
     ∧ (∀ h, (run E (read_card (H := rt) elem) h).2 = Ok info)
     ∧ Spec.retained info
     ∧ info ∉ flights)
  ∧ (elem0 ∈ elems
     ∧ (∀ h, E h (TextContent (First (Sub elem0 airline_selector)))
             = Ok (Some (Py.u "国航 CA1000")))
     ∧ (∀ h, (run E (read_card (H := rt) elem0) h).2
             = Err Scenario.timeout_error)
     ∧ Forall (λ flight : gmap string (list N),
                 flight !! "flight_no" ≠ Some (Py.u "CA1000")) flights).
Proof.
  intros E rt elems flights elem info elem0.
  split; [compute_done|]. split; [compute_done|]. split; [compute_done|].
  split.
  - split; [compute_done|]. split; [intros h; compute_done|].
    split; [|compute_done].
    left. exists (Py.u "CA1020"). split; compute_done.
  - split; [compute_done|]. split; [intros h; compute_done|].
    split; [intros h; compute_done|]. compute_done.
Qed.

End StructuredFacts.

(* ===================================================================== *)
(** * Popup dismissal *)
(* ===================================================================== *)

Module PopupFacts.
Import Playwright Ctrip RunFacts.

Lemma handle_popups_returns : never_raises handle_popups.
Proof.
  unfold handle_popups. apply never_raises_for_each. intros [selector desc].
  apply never_raises_try_except_any. intros e. apply never_raises_ret.
Qed.

Lemma run_popups_nothing_to_click (E : env) handlers h :
  (∀ h' selector desc,
     (selector, desc) ∈ handlers → E h' (Count (Locator selector)) = Ok 0) →
  let after :=
    run E (for_each handlers (λ '(selector, desc),
      try_except except_any
        (elements ← all (Locator selector); for_each elements (dismiss desc))
        (λ _, Ret tt))) h in
  after.2 = Ok tt ∧ clicks after.1 = clicks h.
Proof.
  revert h. induction handlers as [|[selector desc] rest IH]; intros h Hnone.
  - done.
  - cbn [for_each].
    change (bind ?p ?f) with (p ≫= f).
    rewrite run_bind, run_try_except, run_bind, run_all.
    rewrite (Hnone h selector desc) by apply list_elem_of_here.
    cbn [run seq fmap list_fmap for_each].
    destruct (IH (h ++ [Called (Count (Locator selector)) (Ok 0)])) as [Hr Hc].
    { intros h' s d Hin. apply (Hnone h' s d). by apply list_elem_of_further. }
    split; [exact Hr|]. rewrite Hc, clicks_app. simpl. by rewrite app_nil_r.
Qed.

(** C6: [handle_popups] never raises, in any world; and on a page where
    none of its patterns matches an element, two calls in a row click
    nothing and return. *)
Theorem handle_popups_total_and_idempotent :
  never_raises handle_popups
  ∧ ∀ (E : env) h,
      (∀ h' selector desc, (selector, desc) ∈ popup_handlers →
                           E h' (Count (Locator selector)) = Ok 0) →
      let after := run E (handle_popups ;; handle_popups) h in
      after.2 = Ok tt ∧ clicks after.1 = clicks h.
Proof.
  split; [apply handle_popups_returns|].
  intros E h Hnone after. subst after. rewrite run_bind.
  destruct (run_popups_nothing_to_click E popup_handlers h Hnone) as [Hr Hc].
  fold handle_popups in Hr, Hc.
  destruct (run E handle_popups h) as [h1 r1]. cbn [fst snd] in *. subst r1.
  destruct (run_popups_nothing_to_click E popup_handlers h1 Hnone) as [Hr' Hc'].
  fold handle_popups in Hr', Hc'. by rewrite Hc' .
Qed.

Lemma handle_popups_witness :
  let after := run Scenario.many_cards (handle_popups ;; handle_popups) [] in
  after.2 = Ok tt ∧ clicks after.1 = clicks [].
Proof.
  apply (proj2 handle_popups_total_and_idempotent Scenario.many_cards []).
  intros h' selector desc Hin. unfold popup_handlers in Hin.
  repeat (apply elem_of_cons in Hin as [Heq|Hin];
          [injection Heq as -> ->; vm_compute; reflexivity|]).
  by apply elem_of_nil in Hin.
Defined.
End PopupFacts.


(* ===================================================================== *)
(** * Submission *)
(* ===================================================================== *)

Module SubmitFacts.
Import Playwright Ctrip RunFacts.

Lemma click_search_attempts (E : env) candidates h :
  ∃ t, run E (click_search candidates) h = (h ++ t, Ok tt)
       ∧ Spec.attempts candidates t
       ∧ ((∀ h' selector,
             E h' (IsVisible (First (Locator selector)) (Some 2000%Z)) ≠ Ok true) →
          clicks t = []).
Proof.
  revert h. induction candidates as [|selector rest IH]; intros h.
  - exists []. simpl. rewrite app_nil_r. split; [done|]. split; [constructor|done].
  - cbn [click_search]. cbv zeta.
    set (visible := IsVisible (First (Locator selector)) (Some 2000%Z)).
    set (click := Click (First (Locator selector)) None).
    rewrite run_bind, run_try_except, run_bind. step_await.
    destruct (E h visible) as [[|]|e] eqn:Hvis.
    + rewrite run_bind. step_await.
      destruct (E _ click) as [[]|e] eqn:Hclick.
      * eexists [_; _].
        cbn [run except_any]. rewrite <- app_assoc.
        split; [reflexivity|]. split; [apply Spec.attempts_clicked|].
        intros Hnever. by destruct (Hnever h selector).
      * cbn [run except_any].
        edestruct IH as (t & Hrun & Hatt & Hno).
        eexists (_ :: _ :: t).
        rewrite Hrun, <- !app_assoc.
        split; [reflexivity|]. split; [by apply Spec.attempts_click_raised|].
        intros Hnever. by destruct (Hnever h selector).
    + cbn [run except_any].
      edestruct IH as (t & Hrun & Hatt & Hno).
      eexists (_ :: t). rewrite Hrun, <- app_assoc.
      split; [reflexivity|]. split; [by apply Spec.attempts_not_visible|].
      intros Hnever. simpl. by apply Hno.
    + cbn [run except_any].
      edestruct IH as (t & Hrun & Hatt & Hno).
      eexists (_ :: t). rewrite Hrun, <- app_assoc.
      split; [reflexivity|]. split; [by apply Spec.attempts_not_visible|].
      intros Hnever. simpl. by apply Hno.
Qed.

(** C8, as the code has it: the submission returns in every world; it
    goes through the candidates in their order, asks whether each is
    visible, clicks the ones reported visible, and stops after the first
    click that returns; a candidate whose check or click raises is passed
    over and the next one is tried; when no candidate is reported
    visible nothing is clicked. *)
Theorem submit_clicks_until_one_returns (E : env) h :
  ∃ t, run E submit h = (h ++ t, Ok tt)
       ∧ Spec.attempts search_selectors t
       ∧ ((∀ h' selector,
             E h' (IsVisible (First (Locator selector)) (Some 2000%Z)) ≠ Ok true) →
          clicks t = []).
Proof.
  destruct (click_search_attempts E search_selectors h) as (t & Hrun & Hatt & Hno).
  exists t. unfold submit. rewrite run_try_except, Hrun. done.
Qed.

Lemma submit_witness :
  ∃ t, run Scenario.many_cards submit [] = ([] ++ t, Ok tt)
       ∧ Spec.attempts search_selectors t ∧ clicks t = [].
Proof.
  destruct (submit_clicks_until_one_returns Scenario.many_cards [])
    as (t & Hrun & Hatt & Hno).
  exists t. split; [exact Hrun|]. split; [exact Hatt|].
  apply Hno. intros h' selector. discriminate.
Defined.

(** C8, as it is stated, fails when the click on the first visible
    candidate raises: the first candidate was found visible, and yet the
    second candidate is tried and clicked as well. *)
Lemma second_candidate_is_clicked_too :
  let E := Scenario.stubborn_button in
  let first := First (Locator (has_text "button" "搜索")) in
  let second := First (Locator (has_text "button" "查询")) in
  (∀ h, E h (IsVisible first (Some 2000%Z)) = Ok true)
  ∧ (∀ h, E h (Click first None) = Err Scenario.timeout_error)
  ∧ clicks (run E submit []).1 = [first; second]
  ∧ (run E submit []).2 = Ok tt.
Proof.
  intros E first second.
  split; [done|]. split; [intros h; compute_done|].
  split; compute_done.
Qed.
End SubmitFacts.

(* ===================================================================== *)
(** * The top-level handler *)
(* ===================================================================== *)

Module TopLevelFacts.
Import Playwright Ctrip RunFacts.

Lemma run_cleanup (E : env) h :
  run E cleanup h
  = (h ++ Spec.closing E h,
     match E h BrowserClose with Ok _ => Ok tt | Err e => Err e end).
Proof.
  unfold cleanup, Spec.closing. rewrite run_bind, run_await.
  destruct (E h BrowserClose) as [[]|e]; [|done].
  rewrite run_print, <- app_assoc. done.
Qed.

Lemma run_on_error (E : env) e h :
  let h2 := h ++ [Wrote (Stdout (nl ++ Py.u "❌ 发生错误: " ++ exn_msg e));
                  Wrote (Traceback e)] in
  E h2 (Screenshot "error_screenshot.png") = Ok tt →
  let h3 := h2 ++ [Called (Screenshot "error_screenshot.png") (Ok tt);
                   Wrote (Stdout (Py.u "📸 已保存错误截图: "
                                  ++ Py.u "error_screenshot.png"));
                   Wrote (Stdout (Py.u "⏸️  浏览器将保持打开 60 秒供调试..."))] in
  E h3 (WaitForTimeout 60000) = Ok tt →
  run E (on_error e) h = (h3 ++ [Called (WaitForTimeout 60000) (Ok tt)], Ok tt).
Proof.
  intros h2 Hshot h3 Hwait. subst h3 h2.
  rewrite <- ?app_assoc in *. cbn [app] in *. unfold on_error.
  rewrite run_bind, run_print, run_bind. cbn [run].
  rewrite <- ?app_assoc. cbn [app].
  rewrite run_bind. step_await. rewrite Hshot.
  rewrite run_bind, run_print, run_bind, run_print.
  rewrite <- ?app_assoc. cbn [app].
  step_await. rewrite Hwait. rewrite <- ?app_assoc. done.
Qed.

(** C2, as the code has it: every run of the guarded block ends by
    closing the browser; an [Exception] raised by the main sequence
    (from the first navigation on) is caught by the handler, which
    prints the error and the stack trace, takes the screenshot
    [error_screenshot.png] and, when that returned, waits 60 seconds;
    then the browser is closed and, when that returned too, the block
    returns: the exception goes no further.  A failure of the launch
    comes before the guarded block and leaves the session at once. *)
Theorem top_level_handler `{PyRuntime} (E : env) tomorrow_str h :
  (∃ h', (run E (guarded tomorrow_str) h).1 = h' ++ Spec.closing E h')
  ∧ (∀ h1 e,
      run E (main_sequence tomorrow_str) h = (h1, Err e) →
      except_Exception e = true →
      let h2 := h1 ++ [Wrote (Stdout (nl ++ Py.u "❌ 发生错误: " ++ exn_msg e));
                       Wrote (Traceback e)] in
      E h2 (Screenshot "error_screenshot.png") = Ok tt →
      let h3 := h2 ++ [Called (Screenshot "error_screenshot.png") (Ok tt);
                       Wrote (Stdout (Py.u "📸 已保存错误截图: "
                                      ++ Py.u "error_screenshot.png"));
                       Wrote (Stdout (Py.u "⏸️  浏览器将保持打开 60 秒供调试..."))] in
      E h3 (WaitForTimeout 60000) = Ok tt →
      let h4 := h3 ++ [Called (WaitForTimeout 60000) (Ok tt)] in
      run E (guarded tomorrow_str) h
      = (h4 ++ Spec.closing E h4,
         match E h4 BrowserClose with Ok _ => Ok tt | Err e' => Err e' end))
  ∧ ∀ e,
      let h1 := h ++ [Wrote (Stdout (Py.u "🚀 启动浏览器..."))] in
      E h1 (Launch false 500) = Err e →
      run E (session tomorrow_str) h
      = (h1 ++ [Called (Launch false 500) (Err e)], Err e).
Proof.
  split; [|split].
  - unfold guarded. rewrite run_try_finally.
    destruct (run E (try_except _ _ _) h) as [h' r].
    rewrite run_cleanup. exists h'. by destruct (E h' BrowserClose).
  - intros h1 e Hmain He h2 Hshot h3 Hwait h4.
    unfold guarded. rewrite run_try_finally, run_try_except, Hmain, He.
    rewrite (run_on_error E e h1 Hshot Hwait). fold h2 h3 h4.
    rewrite run_cleanup. by destruct (E h4 BrowserClose) as [[]|e'].
  - intros e h1 Hlaunch. unfold session.
    rewrite run_bind, run_print, run_bind. step_await. fold h1.
    by rewrite Hlaunch.
Qed.

Lemma top_level_handler_witness :
  let E := Scenario.slow_site in
  let rt := Scenario.ascii_runtime in
  calls (run E (guarded (H := rt) (Py.u "2026-11-05")) []).1
  = [Goto (international_url (Py.u "20261105")) "domcontentloaded" 60000;
     Screenshot "error_screenshot.png"; WaitForTimeout 60000; BrowserClose]
  ∧ (run E (guarded (H := rt) (Py.u "2026-11-05")) []).2 = Ok tt.
Proof.
  intros E rt.
  pose proof (proj1 (proj2
    (top_level_handler (H := rt) E (Py.u "2026-11-05") []))
    [Wrote (Stdout (Py.u "🌐 导航到携程网..."));
     Called (Goto (international_url (Py.u "20261105")) "domcontentloaded" 60000)
            (Err Scenario.timeout_error)]
    Scenario.timeout_error) as Hrun.
  rewrite Hrun; [split; vm_compute; reflexivity|..]; vm_compute; reflexivity.
Defined.

(** C2, as it is stated, fails for a browser that cannot be launched:
    the launch is outside the guarded block, so the exception leaves
    [search_flights]; nothing is printed about it, no screenshot is
    taken, there is no wait and no browser is closed. *)
Lemma launch_failure_is_not_handled :
  let E := Scenario.no_browser in
  let after := run E (search_flights (H := Scenario.ascii_runtime)) [] in
  after.2 = Err Scenario.launch_error
  ∧ calls after.1
    = [DatetimeNow; PlaywrightStart; Launch false 500; PlaywrightStop]
  ∧ outputs after.1
    = [Stdout (Py.u "📅 查询日期: 2026-11-05");
       Stdout (Py.u "🚀 启动浏览器...")].
Proof.
  intros E after. split; [compute_done|]. split; compute_done.
Qed.
End TopLevelFacts.

(* ===================================================================== *)
(** * The date *)
(* ===================================================================== *)

Module DateFacts.
Import Playwright Ctrip RunFacts.

Lemma days_in_month_bounds y m :
  (28 ≤ Datetime.days_in_month y m ≤ 31)%N.
Proof.
  unfold Datetime.days_in_month. repeat case_match; lia.
Qed.







(** The calls of the parts of the script that never navigate. *)
Ltac calls_step :=
  match goal with
  | |- calls_only _ (_ ≫= _) => apply calls_only_bind; [|intros ?]
  | |- calls_only ?P (await ?c) => apply (calls_only_await P c); exact I
  | |- calls_only _ (all _) => progress unfold all
  | |- calls_only _ (bind ?p ?f) => progress change (bind p f) with (p ≫= f)
  | |- calls_only _ (print _) => apply calls_only_print
  | |- calls_only _ (try_except _ _ _) =>
    apply calls_only_try_except; [|intros ?]
  | |- calls_only _ (for_each _ _) => apply calls_only_for_each; intros ?
  | |- calls_only _ (Ret _) => constructor
  | |- calls_only _ (Raise _) => constructor
  | |- calls_only _ (Write _ _) => constructor
  | |- calls_only _ (if ?b then _ else _) => destruct b
  | |- calls_only _ (match ?x with _ => _ end) => destruct x
  end.

Lemma handle_popups_calls : calls_only no_goto handle_popups.
Proof. unfold handle_popups, dismiss. repeat calls_step. Qed.

Lemma fill_city_calls selector city excuse :
  calls_only no_goto (fill_city selector city excuse).
Proof. unfold fill_city. cbv zeta. repeat calls_step. Qed.

Lemma click_search_calls candidates :
  calls_only no_goto (click_search candidates).
Proof.
  induction candidates as [|selector rest IH]; cbn [click_search]; cbv zeta;
    repeat calls_step; exact IH.
Qed.

Lemma submit_calls : calls_only no_goto submit.
Proof.
  unfold submit. repeat calls_step. apply click_search_calls.
Qed.

Lemma find_flight_elements_calls candidates :
  calls_only no_goto (find_flight_elements candidates).
Proof.
  induction candidates as [|selector rest IH]; cbn [find_flight_elements];
    repeat calls_step; exact IH.
Qed.

Lemma read_card_calls `{PyRuntime} elem : calls_only no_goto (read_card elem).
Proof. unfold read_card. cbv zeta. repeat calls_step. Qed.

Lemma extract_cards_calls `{PyRuntime} elems flights :
  calls_only no_goto (extract_cards elems flights).
Proof.
  revert flights. induction elems as [|elem rest IH]; intros flights;
    cbn [extract_cards]; [constructor|].
  apply calls_only_bind; [|intros ?; apply IH].
  unfold extract_card. apply calls_only_try_except; [|constructor].
  apply calls_only_bind; [apply read_card_calls|intros ?].
  repeat calls_step.
Qed.

Lemma extract_flight_info_calls `{PyRuntime} :
  calls_only no_goto extract_flight_info.
Proof.
  unfold extract_flight_info, extract_structured.
  apply calls_only_bind.
  - apply calls_only_bind; [calls_step|intros _].
    apply calls_only_bind; [apply find_flight_elements_calls|intros ?].
    apply extract_cards_calls.
  - intros [|flight flights]; [|constructor].
    apply calls_only_bind; [apply calls_only_print|intros _].
    unfold extract_generic_flight_info.
    constructor; [exact I|]. intros [text|e].
    + destruct (generic_records text) as [flights [e|]]; repeat calls_step.
    + repeat calls_step.
Qed.

Lemma report_calls tomorrow_str flights :
  calls_only no_goto (report tomorrow_str flights).
Proof.
  unfold report.
  repeat (apply calls_only_bind; [apply calls_only_print|intros _]).
  destruct flights as [|flight flights].
  - repeat calls_step.
  - apply calls_only_for_each. intros [i fl]. unfold print_flight.
    repeat calls_step.
Qed.

Ltac no_goto_step :=
  match goal with
  | |- calls_only _ handle_popups => apply handle_popups_calls
  | |- calls_only _ (fill_city _ _ _) => apply fill_city_calls
  | |- calls_only _ submit => apply submit_calls
  | |- calls_only _ extract_flight_info => apply extract_flight_info_calls
  | |- calls_only _ (report _ _) => apply report_calls
  | _ => calls_step
  end.





(** On that page the run is not cut short: both URLs are visited. *)
Example both_urls_are_visited :
  gotos (run Scenario.many_cards
           (search_flights (H := Scenario.ascii_runtime)) []).1
  = [international_url (Py.u "20261105"); domestic_url (Py.u "20261105")].
Proof. compute_done. Qed.

End DateFacts.

(* ===================================================================== *)
(** * The cascade, the cards and the fallback, further *)
(* ===================================================================== *)

Module CascadeFacts.
Import Playwright Ctrip RunFacts More.

(** X1: in every world the selector cascade returns; it asks for the
    candidates in their order, passes over a candidate that has no
    element or whose query raises, and stops at the first candidate that
    has elements: it prints which one and how many, and returns exactly
    these elements (none when no candidate has any). *)
Theorem cascade_first_hit (E : env) candidates h :
  ∃ t elems,
    run E (find_flight_elements candidates) h = (h ++ t, Ok elems)
    ∧ cascade candidates t elems.
Proof.
  revert h. induction candidates as [|selector rest IH]; intros h.
  - exists [], []. simpl. rewrite app_nil_r. split; [done|constructor].
  - cbn [find_flight_elements].
    rewrite run_bind, run_try_except, run_bind, run_all.
    destruct (E h (Count (Locator selector))) as [[|n]|e] eqn:Hcount.
    + cbn [run fmap list_fmap seq].
      edestruct IH as (t & elems & Hrun & Hc).
      eexists (_ :: t), elems. rewrite Hrun, <- app_assoc.
      split; [reflexivity|]. apply cascade_miss; [by left|done].
    + cbn [seq fmap list_fmap]. rewrite run_bind, run_print. cbn [run].
      eexists [_; _], _. rewrite <- app_assoc.
      split; [reflexivity|]. cbn [length]. rewrite length_fmap, length_seq.
      apply cascade_hit.
    + cbn [run except_any].
      edestruct IH as (t & elems & Hrun & Hc).
      eexists (_ :: t), elems. rewrite Hrun, <- app_assoc.
      split; [reflexivity|]. apply cascade_miss; [right; by eexists|done].
Qed.
End CascadeFacts.

Module CardFacts.
Import Playwright Ctrip RunFacts More.

Lemma parse_price_run `{PyRuntime} text :
  parse_price text = Spec.first_digit_run (Spec.strip_separators text).
Proof.
  unfold parse_price, Re.search. rewrite ReFacts.replace_comma.
  pose proof (ReFacts.search_digits None (Spec.strip_separators text)) as Hs.
  by destruct (Re.search_from _ _ _).
Qed.

Lemma leading_run_all p s : forallb p (Spec.leading_run p s) = true.
Proof.
  induction s as [|c s IH]; simpl; [done|].
  destruct (p c) eqn:Hc; simpl; [by rewrite Hc|done].
Qed.

Lemma parse_price_digits `{PyRuntime} text :
  forallb isdecimal (parse_price text) = true.
Proof. rewrite parse_price_run. apply leading_run_all. Qed.

Lemma no_space_snoc `{PyRuntime} word c :
  no_space word = true → isspace c = false → no_space (word ++ [c]) = true.
Proof.
  unfold no_space. intros Hw Hc. rewrite forallb_app, Hw. simpl. by rewrite Hc.
Qed.

(** The words of [split] are not empty and hold no white space. *)
Lemma split_go_words `{PyRuntime} word s :
  no_space word = true →
  Forall (λ w, w ≠ [] ∧ no_space w = true) (Py.split_go word s).
Proof.
  revert word. induction s as [|c s IH]; intros word Hword; simpl.
  - destruct word; [constructor|]. by repeat constructor.
  - destruct (isspace c) eqn:Hc.
    + destruct word as [|c0 word]; [by apply IH|].
      constructor; [done|by apply IH].
    + apply IH. by apply no_space_snoc.
Qed.

Lemma split_words `{PyRuntime} s :
  Forall (λ w, w ≠ [] ∧ no_space w = true) (Py.split s).
Proof. by apply split_go_words. Qed.

Ltac look :=
  repeat (rewrite lookup_insert_eq || rewrite lookup_insert_ne by done
          || rewrite lookup_empty).

Ltac known_key Hv :=
  repeat (rewrite lookup_insert in Hv;
          destruct (decide _) as [<-|?] in Hv; [compute_done|]);
  by rewrite lookup_empty in Hv.

Lemma read_card_well_formed `{PyRuntime} elem :
  returns_only (read_card elem) well_formed_card.
Proof.
  unfold read_card.
  repeat (apply returns_only_bind with (Q := λ _, True);
          [apply returns_only_any|intros ? _]).
  apply returns_only_ret. unfold well_formed_card.
  destruct a as [[|? ?]|], a0 as [|? [|? ?]], a1 as [|? [|? ?]],
           a2 as [[|? ?]|];
    (split; [look; by eauto|]); (split; [look; by eauto|]);
    (split; [look; split; intros [? ?]; by eauto|]);
    (split; [intros price; look; intros Hp; try done;
             injection Hp as <-; apply parse_price_digits|]);
    intros key [v Hv]; known_key Hv.
Qed.

Lemma read_card_words `{PyRuntime} elem :
  returns_only (read_card elem)
    (λ info, ∀ key v, key = "airline" ∨ key = "flight_no" →
                      info !! key = Some v → no_space v = true).
Proof.
  unfold read_card.
  repeat (apply returns_only_bind with (Q := λ _, True);
          [apply returns_only_any|intros ? _]).
  apply returns_only_ret. intros key v Hkey.
  destruct a as [[|c text]|], a0 as [|? [|? ?]], a1 as [|? [|? ?]],
           a2 as [[|? ?]|];
    destruct Hkey as [-> | ->]; look; intros Hv; try done;
    injection Hv as <-;
    pose proof (split_words (Py.strip (c :: text))) as Hw;
    destruct (Py.split (Py.strip (c :: text))) as [|p0 [|p1 ps]];
    try done;
    repeat match goal with
    | H : Forall _ (_ :: _) |- _ => apply Forall_cons in H as [[_ ?] ?]
    end; done.
Qed.

Lemma returns_only_and {A} (p : prog A) (Q R : A → Prop) :
  returns_only p Q → returns_only p R → returns_only p (λ a, Q a ∧ R a).
Proof.
  intros HQ HR E h. specialize (HQ E h). specialize (HR E h).
  by destruct (run E p h).2.
Qed.

(** The loop over the cards keeps what holds of every record read and
    kept. *)
Lemma extract_cards_all `{PyRuntime} (P : gmap string (list N) → Prop)
    elems flights :
  (∀ elem, returns_only (read_card elem) P) →
  Forall (λ info, P info ∧ has_basic_info info = true) flights →
  returns_only (extract_cards elems flights)
    (Forall (λ info, P info ∧ has_basic_info info = true)).
Proof.
  intros Hread. revert flights.
  induction elems as [|elem rest IH]; intros flights Hfl.
  - by apply returns_only_ret.
  - cbn [extract_cards].
    apply returns_only_bind
      with (Q := Forall (λ info, P info ∧ has_basic_info info = true));
      [|apply IH].
    unfold extract_card.
    apply returns_only_try_except; [|intros e; by apply returns_only_ret].
    apply returns_only_bind with (Q := P); [apply Hread|].
    intros info Hinfo. destruct (has_basic_info info) eqn:Hb;
      apply returns_only_ret; [|done].
    apply Forall_app. split; [done|]. by repeat constructor.
Qed.

Lemma extract_cards_length `{PyRuntime} elems flights :
  returns_only (extract_cards elems flights)
    (λ out, length out ≤ length flights + length elems).
Proof.
  revert flights. induction elems as [|elem rest IH]; intros flights.
  - apply returns_only_ret. simpl. lia.
  - cbn [extract_cards].
    apply returns_only_bind with (Q := λ out, length out ≤ S (length flights)).
    + unfold extract_card.
      apply returns_only_try_except;
        [|intros e; apply returns_only_ret; lia].
      apply returns_only_bind with (Q := λ _, True); [apply returns_only_any|].
      intros info _. destruct (has_basic_info info); apply returns_only_ret;
        rewrite ?length_app; simpl; lia.
    + intros out Hout. eapply returns_only_weaken; [apply IH|].
      intros out' Hout'. simpl in *. lia.
Qed.

Lemma extract_structured_all `{PyRuntime} (P : gmap string (list N) → Prop) :
  (∀ elem, returns_only (read_card elem) P) →
  returns_only extract_structured
    (λ flights, length flights ≤ 20
                ∧ Forall (λ info, P info ∧ has_basic_info info = true) flights).
Proof.
  intros Hread. unfold extract_structured.
  apply returns_only_bind with (Q := λ _, True); [apply returns_only_any|].
  intros _ _.
  apply returns_only_bind with (Q := λ _, True); [apply returns_only_any|].
  intros elems _. apply returns_only_and.
  - eapply returns_only_weaken; [apply extract_cards_length|].
    intros out Hout. rewrite length_take in Hout.
    change (length (@nil (gmap string (list N)))) with 0 in Hout. lia.
  - by apply extract_cards_all.
Qed.

Lemma fallback_bounded_retained `{PyRuntime} :
  returns_only extract_generic_flight_info
    (λ flights, length flights ≤ 10 ∧ Forall Spec.retained flights).
Proof.
  intros E h. rewrite FallbackFacts.run_extract_generic.
  destruct (E h (InnerText "body")) as [text|e];
    [|destruct (except_Exception e); [split; [simpl; lia|constructor]|done]].
  rewrite FallbackFacts.generic_records_ok. cbn [fst]. split.
  { rewrite length_imap, length_take. lia. }
  apply Forall_forall.
  intros flight Hin. apply list_elem_of_lookup in Hin as [i Hi].
  rewrite list_lookup_imap in Hi.
  destruct (take 10 _ !! i) as [flight_no|] eqn:Hfn; [|done].
  injection Hi as <-. left. exists flight_no. split.
  - unfold Spec.paired_record. by look.
  - apply list_elem_of_lookup_2, subseteq_take in Hfn.
    rewrite set_to_list_elem in Hfn.
    apply ReFacts.scan_group in Hfn as (c & f & Hm & ->).
    apply ReFacts.flight_pattern_group in Hm. intros Heq.
    rewrite Heq in Hm. discriminate Hm.
Qed.

(** X2: the structured extraction returns at most 20 records, and so
    does [extract_flight_info] (whichever path it took); every record
    they return has a non-empty flight number or a non-empty price. *)
Theorem at_most_twenty_records_all_retained `{PyRuntime} :
  returns_only extract_structured
    (λ flights, length flights ≤ 20 ∧ Forall Spec.retained flights)
  ∧ returns_only extract_flight_info
      (λ flights, length flights ≤ 20 ∧ Forall Spec.retained flights).
Proof.
  assert (Hs : returns_only extract_structured
    (λ flights, length flights ≤ 20 ∧ Forall Spec.retained flights)).
  { eapply returns_only_weaken.
    - apply (extract_structured_all (λ _, True)). intros elem.
      apply returns_only_any.
    - intros flights [Hlen Hall]. split; [done|].
      eapply Forall_impl; [exact Hall|]. intros info [_ Hb].
      by apply StructuredFacts.has_basic_info_retained. }
  split; [exact Hs|]. unfold extract_flight_info.
  eapply returns_only_bind; [exact Hs|].
  intros [|flight flights] Hfl; [|by apply returns_only_ret].
  apply returns_only_bind with (Q := λ _, True); [apply returns_only_any|].
  intros _ _. eapply returns_only_weaken; [apply fallback_bounded_retained|].
  intros out [Hlen Hall]. split; [lia|done].
Qed.

(** X3: every record of the structured extraction carries [aircraft]
    and [on_time_rate]; it carries [airline] exactly when it carries
    [flight_no]; its [price], when present, consists of decimal digits
    only; and it carries no field besides the nine field names. *)
Theorem structured_records_well_formed `{PyRuntime} :
  returns_only extract_structured (Forall well_formed_card).
Proof.
  eapply returns_only_weaken.
  - apply (extract_structured_all well_formed_card), read_card_well_formed.
  - intros flights [_ Hall]. eapply Forall_impl; [exact Hall|]. by intros info [? _].
Qed.

(** X4: in every record of the structured extraction the [airline] and
    the [flight_no] hold no white-space character: each is one word of
    the text read (or empty). *)
Theorem airline_and_flight_no_are_words `{PyRuntime} :
  returns_only extract_structured
    (Forall (λ info : gmap string (list N),
       ∀ key v, key = "airline" ∨ key = "flight_no" →
                info !! key = Some v → no_space v = true)).
Proof.
  eapply returns_only_weaken.
  - apply (extract_structured_all _ read_card_words).
  - intros flights [_ Hall]. eapply Forall_impl; [exact Hall|]. by intros info [? _].
Qed.

End CardFacts.

Module PatternFacts.
Import Re Ctrip More ReFacts.

Lemma Forall_true_forallb (p : N → bool) s :
  Forall (λ c, p c = true) s → forallb p s = true.
Proof.
  intros Hall. apply forallb_forall. intros x Hx.
  apply list_elem_of_In in Hx. by apply (proj1 (Forall_forall _ _) Hall).
Qed.

(** What a match of the time pattern captures. *)
Lemma time_pattern_group `{PyRuntime} c f :
  match_at time_pattern c = Some f → is_time (group1 f) = true.
Proof.
  unfold match_at, time_pattern. simpl exec.
  destruct (at_boundary c); [|done]. intros Hm.
  apply rep_sound in Hm as (n1 & b1 & Hlo1 & Hhi1 & Hlen1 & Hall1 & Hm).
  specialize (Hhi1 2 eq_refl). assert (n1 = 2) as -> by lia.
  cbn [ahead before] in Hm.
  destruct (drop 2 (ahead c)) as [|colon s2] eqn:Hdrop; [done|].
  destruct (is_char 58 colon) eqn:Hcolon; [|done].
  apply rep_sound in Hm as (n2 & b2 & Hlo2 & Hhi2 & Hlen2 & Hall2 & Hm).
  specialize (Hhi2 2 eq_refl). assert (n2 = 2) as -> by lia.
  cbn [ahead before] in Hm.
  destruct (at_boundary _); [|done]. injection Hm as <-.
  unfold group1. cbn [snd default].
  destruct (ahead c) as [|h1 [|h2 s]]; simpl in Hlen1; try lia.
  simpl in Hdrop. rewrite drop_0 in Hdrop. subst s.
  destruct s2 as [|m1 [|m2 s3]]; simpl in Hlen2; try lia.
  replace (length (h1 :: h2 :: colon :: m1 :: m2 :: s3)
           - length (drop 2 (m1 :: m2 :: s3))) with 5
    by (simpl; rewrite drop_0; lia).
  simpl. apply Forall_cons in Hall1 as [-> Hall1].
  apply Forall_cons in Hall1 as [-> _].
  apply Forall_cons in Hall2 as [-> Hall2].
  apply Forall_cons in Hall2 as [-> _].
  unfold is_char in Hcolon. by rewrite Hcolon.
Qed.

(** What a match of the price pattern captures. *)
Lemma price_pattern_group `{PyRuntime} c f :
  match_at price_pattern c = Some f → is_price (group1 f) = true.
Proof.
  unfold match_at, price_pattern. simpl exec. intros Hm.
  apply rep_sound in Hm as (n1 & b1 & _ & _ & _ & _ & Hm).
  cbn [ahead before] in Hm.
  apply rep_sound in Hm as (n2 & b2 & _ & _ & _ & _ & Hm).
  cbn [ahead before] in Hm.
  set (s := drop n2 (drop n1 (ahead c))) in *.
  apply rep_sound in Hm as (n3 & b3 & Hlo & Hhi & Hlen & Hall & Hm).
  specialize (Hhi 5 eq_refl). cbn [ahead before] in Hm.
  apply rep_sound in Hm as (n4 & b4 & _ & _ & _ & _ & Hm).
  cbn [ahead before] in Hm.
  assert (Hg : snd f = Some (take (length s - length (drop n3 s)) s)).
  { repeat case_match; by simplify_eq. }
  unfold group1. rewrite Hg. cbn [default from_option id].
  rewrite length_drop.
  replace (length s - (length s - n3)) with n3 by lia.
  unfold is_price. rewrite length_take.
  replace (n3 `min` length s) with n3 by lia.
  rewrite (Forall_true_forallb _ _ Hall).
  rewrite (proj2 (Nat.leb_le 3 n3) Hlo), (proj2 (Nat.leb_le n3 5) Hhi). done.
Qed.
End PatternFacts.

Module FallbackShape.
Import Playwright Ctrip RunFacts More.

Lemma flight_no_of_record times prices (items : list (list N)) :
  (λ flight : gmap string (list N), flight !! "flight_no")
    <$> imap (Spec.paired_record times prices) items
  = Some <$> items.
Proof.
  apply list_eq. intros i.
  rewrite !list_lookup_fmap, list_lookup_imap.
  destruct (items !! i) as [flight_no|]; [|done]. simpl.
  unfold Spec.paired_record.
  by rewrite !lookup_insert_ne, lookup_insert_eq by done.
Qed.

Lemma paired_record_fields times prices i flight_no key :
  is_Some (Spec.paired_record times prices i flight_no !! key)
  ↔ key ∈ generic_fields.
Proof.
  unfold Spec.paired_record, generic_fields. split.
  - intros [v Hv].
    repeat (rewrite lookup_insert in Hv;
            destruct (decide _) as [<-|?] in Hv; [compute_done|]).
    by rewrite lookup_empty in Hv.
  - intros Hk.
    repeat (apply elem_of_cons in Hk as [->|Hk]; [by simplify_map_eq|]).
    by apply elem_of_nil in Hk.
Qed.

(** X8: when the body text can be read, the fallback returns exactly
    min(10, number of distinct flight-number matches) records; no two of
    them have the same flight number; and each carries exactly the four
    fields [flight_no], [depart_time], [arrive_time], [price].  When the
    body text cannot be read it returns no record, or raises for a
    [BaseException]. *)
Theorem fallback_records_are_distinct `{PyRuntime} (E : env) h :
  match E h (InnerText "body") with
  | Ok text =>
    ∃ flights,
      (run E extract_generic_flight_info h).2 = Ok flights
      ∧ length flights
        = 10 `min` length (remove_dups (Re.findall flight_pattern text))
      ∧ NoDup ((λ flight : gmap string (list N), flight !! "flight_no")
               <$> flights)
      ∧ Forall (λ flight : gmap string (list N),
                  ∀ key, is_Some (flight !! key) ↔ key ∈ generic_fields)
               flights
  | Err e =>
    (run E extract_generic_flight_info h).2
    = if except_Exception e then Ok [] else Err e
  end.
Proof.
  rewrite FallbackFacts.run_extract_generic.
  destruct (E h (InnerText "body")) as [text|e]; [|done].
  rewrite FallbackFacts.generic_records_ok. cbn [fst].
  eexists. split; [reflexivity|]. split; [|split].
  - by rewrite length_imap, length_take, FallbackFacts.set_to_list_length.
  - rewrite flight_no_of_record. apply (NoDup_fmap_2 Some).
    eapply sublist_NoDup; [apply set_to_list_NoDup|apply sublist_take].
  - apply Forall_forall. intros flight Hin.
    apply list_elem_of_lookup in Hin as [i Hi].
    rewrite list_lookup_imap in Hi.
    destruct (take 10 _ !! i) as [flight_no|]; [|done]. injection Hi as <-.
    intros key. apply paired_record_fields.
Qed.

Lemma findall_default `{PyRuntime} r (P : list N → bool) text i :
  (∀ c f, Re.match_at r c = Some f → P (Re.group1 f) = true) →
  let v := default [] (Re.findall r text !! i) in
  v = [] ∨ P v = true.
Proof.
  intros Hgroup v. subst v.
  destruct (Re.findall r text !! i) as [x|] eqn:Hx; [|by left].
  right. apply list_elem_of_lookup_2 in Hx.
  apply ReFacts.scan_group in Hx as (c & f & Hm & ->). by eapply Hgroup.
Qed.

(** X9: in every record of the fallback each of the two times is empty
    or of the form [\d\d:\d\d], and the price is empty or made of three
    to five decimal digits. *)
Theorem fallback_times_and_prices `{PyRuntime} :
  returns_only extract_generic_flight_info
    (Forall (λ flight : gmap string (list N),
       (∀ key v, key = "depart_time" ∨ key = "arrive_time" →
                 flight !! key = Some v → v = [] ∨ is_time v = true)
       ∧ (∀ v, flight !! "price" = Some v → v = [] ∨ is_price v = true))).
Proof.
  intros E h. rewrite FallbackFacts.run_extract_generic.
  destruct (E h (InnerText "body")) as [text|e];
    [|by destruct (except_Exception e)].
  rewrite FallbackFacts.generic_records_ok. cbn [fst].
  apply Forall_forall. intros flight Hin.
  apply list_elem_of_lookup in Hin as [i Hi].
  rewrite list_lookup_imap in Hi.
  destruct (take 10 _ !! i) as [flight_no|]; [|done]. injection Hi as <-.
  unfold Spec.paired_record. split.
  - intros key v [-> | ->] Hv; simplify_map_eq;
      apply (findall_default time_pattern is_time);
      apply PatternFacts.time_pattern_group.
  - intros v Hv. simplify_map_eq.
    apply (findall_default price_pattern is_price).
    apply PatternFacts.price_pattern_group.
Qed.
End FallbackShape.

Module EscapeFacts.
Import Playwright Ctrip RunFacts More.

Lemma extract_cards_raise `{PyRuntime} (E : env) elems flights h e :
  (run E (extract_cards elems flights) h).2 = Err e →
  except_Exception e = false.
Proof.
  revert flights h. induction elems as [|elem rest IH]; intros flights h.
  - done.
  - cbn [extract_cards].
    rewrite run_bind, StructuredFacts.run_extract_card.
    destruct (run E (read_card elem) h) as [h' [info|e']].
    + apply IH.
    + destruct (except_Exception e') eqn:He'; [apply IH|].
      cbn [snd]. intros [= <-]. done.
Qed.

(** X6: an [Exception] that leaves [extract_flight_info] is the one
    [page.content()] raised at its very start; no failure of a selector
    query, of a card read or of the body-text read leaves it as an
    [Exception]. *)
Theorem only_page_content_failure_escapes `{PyRuntime} (E : env) h e :
  (run E extract_flight_info h).2 = Err e →
  except_Exception e = true →
  E h Content = Err e.
Proof.
  unfold extract_flight_info, extract_structured.
  rewrite !run_bind. step_await.
  destruct (E h Content) as [content|e0]; [|by intros [= ->]].
  rewrite run_bind.
  destruct (StructuredFacts.find_flight_elements_returns selectors E
              (h ++ [Called Content (Ok content)])) as [elems Helems].
  destruct (run E (find_flight_elements selectors) _) as [h1 r1].
  cbn [snd] in Helems. subst r1.
  pose proof (extract_cards_raise E (take 20 elems) [] h1) as Hcards.
  destruct (run E (extract_cards _ _) h1) as [h2 [flights|e2]].
  - destruct flights as [|flight flights]; [|by simpl].
    rewrite run_bind, run_print.
    rewrite FallbackFacts.run_extract_generic.
    destruct (E _ (InnerText "body")) as [text|e3]; [done|].
    destruct (except_Exception e3) eqn:He3; [done|].
    intros [= <-]. by rewrite He3.
  - cbn [snd] in *. intros [= <-] He. by rewrite (Hcards e2 eq_refl) in He.
Qed.

Lemma only_page_content_failure_witness :
  closed_window [] Content = Err target_closed.
Proof.
  apply (only_page_content_failure_escapes (H := Scenario.ascii_runtime)
           closed_window [] target_closed); reflexivity.
Defined.
End EscapeFacts.

Module KeptFacts.
Import Playwright Ctrip RunFacts More.

Lemma first_digit_run_truthy `{PyRuntime} s :
  Py.truthy (Some (Spec.first_digit_run s)) = existsb isdecimal s.
Proof.
  unfold Spec.first_digit_run. induction s as [|c s IH]; [done|].
  cbn [Spec.skip_to existsb]. destruct (isdecimal c) eqn:Hc; [|exact IH].
  cbn [Spec.leading_run]. by rewrite Hc.
Qed.

Lemma comma_is_no_digit `{PyRuntime} : isdecimal 44 = false.
Proof. by rewrite isdecimal_latin1. Qed.

Lemma strip_separators_digits `{PyRuntime} s :
  existsb isdecimal (Spec.strip_separators s) = existsb isdecimal s.
Proof.
  unfold Spec.strip_separators. induction s as [|c s IH]; [done|].
  cbn [List.filter existsb]. destruct (c =? 44)%N eqn:Hc; cbn [negb].
  - apply N.eqb_eq in Hc. subst c. by rewrite comma_is_no_digit.
  - cbn [existsb]. by rewrite IH.
Qed.

(** The price is empty exactly when the price text has no digit. *)
Lemma parse_price_truthy `{PyRuntime} text :
  Py.truthy (Some (parse_price text)) = existsb isdecimal text.
Proof.
  by rewrite CardFacts.parse_price_run, first_digit_run_truthy,
    strip_separators_digits.
Qed.

(** The flight number is empty exactly when the text has no second
    word. *)
Lemma second_word_truthy `{PyRuntime} s :
  Py.truthy (Some (match Py.split s with _ :: p1 :: _ => p1 | _ => [] end))
  = bool_decide (2 ≤ length (Py.split s)).
Proof.
  pose proof (CardFacts.split_words s) as Hw.
  destruct (Py.split s) as [|p0 [|p1 ps]]; [done..|].
  apply Forall_cons in Hw as [_ Hw]. apply Forall_cons in Hw as [[Hp1 _] _].
  cbn [length]. rewrite bool_decide_eq_true_2 by lia. by destruct p1.
Qed.

(** X5: on a page whose airline text and price text of a card do not
    change while the card is read, and when all reads of the card
    return, the card passes the test for basic information exactly when
    its airline text has at least two words or its price text holds a
    decimal digit. *)
Theorem card_is_kept_iff `{PyRuntime} (E : env) elem h airline_text
    price_elem info :
  (∀ h', E h' (TextContent (First (Sub elem airline_selector)))
         = Ok airline_text) →
  (∀ h', E h' (TextContent (First (Sub elem price_selector)))
         = Ok price_elem) →
  (run E (read_card elem) h).2 = Ok info →
  has_basic_info info = true
  ↔ 2 ≤ length (Py.split (Py.strip (default [] airline_text)))
    ∨ existsb isdecimal (default [] price_elem) = true.
Proof.
  intros Hairline Hprice. unfold read_card. cbv zeta.
  rewrite run_bind. step_await. rewrite Hairline. cbv beta iota.
  rewrite run_bind. step_await.
  destruct (E _ (AllTextContents (Sub elem time_selector)))
    as [time_elems|e]; [|discriminate].
  rewrite run_bind. step_await.
  destruct (E _ (AllTextContents (Sub elem airport_selector)))
    as [airport_elems|e]; [|discriminate].
  rewrite run_bind. step_await. rewrite Hprice. cbv beta iota.
  rewrite run_bind. step_await.
  destruct (E _ (TextContent (First (Sub elem craft_selector))))
    as [craft_elem|e]; [|discriminate].
  rewrite run_bind. step_await.
  destruct (E _ (TextContent (First (Sub elem rate_selector))))
    as [rate_elem|e]; [|discriminate].
  cbn [run snd]. intros [= <-]. unfold has_basic_info.
  assert (Hempty : Py.split (Py.strip []) = []) by reflexivity.
  destruct airline_text as [[|c text]|], time_elems as [|? [|? ?]],
           airport_elems as [|? [|? ?]], price_elem as [[|c' text']|];
    CardFacts.look; cbn [default from_option id];
    rewrite ?second_word_truthy, ?parse_price_truthy, ?Hempty, ?lookup_empty;
    cbn [Py.truthy existsb length orb];
    rewrite ?orb_false_r;
    try (rewrite orb_true_iff); rewrite ?bool_decide_eq_true;
    (split; [intros Hk|intros [Hk|Hk]]);
    try done; try lia; auto; destruct Hk as [Hk|Hk]; auto; done.
Qed.
Lemma card_is_kept_witness :
  has_basic_info (Scenario.card_record 1) = true
  ↔ 2 ≤ length (Py.split (H := Scenario.ascii_runtime)
                  (Py.strip (H := Scenario.ascii_runtime)
                     (Py.u "国航 CA1001")))
    ∨ existsb (@isdecimal Scenario.ascii_runtime) (Py.u "¥1,230 起") = true.
Proof.
  apply (card_is_kept_iff (H := Scenario.ascii_runtime) Scenario.many_cards
           (Nth Scenario.flight_items 1) []
           (Some (Py.u "国航 CA1001")) (Some (Py.u "¥1,230 起"))
           (Scenario.card_record 1)).
  - intros h'. vm_compute. reflexivity.
  - intros h'. vm_compute. reflexivity.
  - compute_done.
Defined.
End KeptFacts.


(* ===================================================================== *)
(** * Traces and popups *)
(* ===================================================================== *)

Module TraceFacts.
Import Playwright Ctrip RunFacts More.

Lemma calls_app h t : calls (h ++ t) = calls h ++ calls t.
Proof. unfold calls. apply omap_app. Qed.

Lemma calls_where_app kind t1 t2 :
  calls_where kind (t1 ++ t2) = calls_where kind t1 ++ calls_where kind t2.
Proof. unfold calls_where. by rewrite calls_app, List.filter_app. Qed.

Lemma calls_where_none kind t :
  Forall (λ c, kind c = false) (calls t) → calls_where kind t = [].
Proof.
  unfold calls_where. induction 1 as [|c l Hc _ IH]; simpl; [done|].
  by rewrite Hc.
Qed.

(** The end of a run, given what it adds to the history. *)
Lemma run_split {A} (E : env) (p : prog A) h :
  ∃ t, run E p h = (h ++ t, (run E p h).2).
Proof.
  destruct (run_extends E p h) as [t Ht]. exists t.
  destruct (run E p h) as [h' r]. simpl in Ht. by subst h'.
Qed.

Lemma emits_ret {A} (a : A) (T : list event → Prop) : T [] → emits (Ret a) T.
Proof. intros HT E h. exists []. simpl. by rewrite app_nil_r. Qed.

Lemma emits_bind {A B} (p : prog A) (f : A → prog B) (T : list event → Prop) :
  (∀ t1 t2, T t1 → T t2 → T (t1 ++ t2)) →
  emits p T → (∀ a, emits (f a) T) → emits (p ≫= f) T.
Proof.
  intros Happ Hp Hf E h. rewrite run_bind.
  destruct (Hp E h) as (t1 & Ht1 & HT1).
  destruct (run E p h) as [h1 [a|e]]; simpl in Ht1; subst h1; [|by exists t1].
  destruct (Hf a E (h ++ t1)) as (t2 & Ht2 & HT2).
  exists (t1 ++ t2). rewrite Ht2, app_assoc. auto.
Qed.

Lemma emits_try_except {A} catches (p : prog A) handler
    (T : list event → Prop) :
  (∀ t1 t2, T t1 → T t2 → T (t1 ++ t2)) →
  emits p T → (∀ e, emits (handler e) T) →
  emits (try_except catches p handler) T.
Proof.
  intros Happ Hp Hf E h. rewrite run_try_except.
  destruct (Hp E h) as (t1 & Ht1 & HT1).
  destruct (run E p h) as [h1 [a|e]]; simpl in Ht1; subst h1; [by exists t1|].
  destruct (catches e); [|by exists t1].
  destruct (Hf e E (h ++ t1)) as (t2 & Ht2 & HT2).
  exists (t1 ++ t2). rewrite Ht2, app_assoc. auto.
Qed.

Lemma emits_for_each {X} (l : list X) body (T : list event → Prop) :
  T [] → (∀ t1 t2, T t1 → T t2 → T (t1 ++ t2)) →
  (∀ x, emits (body x) T) → emits (for_each l body) T.
Proof.
  intros Hnil Happ Hb. induction l as [|x l IH]; simpl.
  - by apply emits_ret.
  - by apply (emits_bind (body x)).
Qed.

Lemma emits_weaken {A} (p : prog A) (T U : list event → Prop) :
  emits p T → (∀ t, T t → U t) → emits p U.
Proof.
  intros Hp HTU E h. destruct (Hp E h) as (t & Ht & HT). exists t. auto.
Qed.

(** The calls that can be made are the calls that are made. *)
Lemma calls_only_emits {A} P (p : prog A) :
  calls_only P p → emits p (λ t, Forall P (calls t)).
Proof.
  intros Hp E. induction Hp as [a|e|o k _ IH|c k Hc _ IH]; intros h; simpl.
  - exists []. by rewrite app_nil_r.
  - exists []. by rewrite app_nil_r.
  - destruct (IH (h ++ [Wrote o])) as (t & -> & Ht).
    exists (Wrote o :: t). by rewrite <- app_assoc.
  - destruct (IH (E h c) (h ++ [Called c (E h c)])) as (t & -> & Ht).
    exists (Called c (E h c) :: t). rewrite <- app_assoc. split; [done|].
    simpl. by constructor.
Qed.

Lemma calls_only_weaken {A} (P Q : call → Prop) (p : prog A) :
  (∀ c, P c → Q c) → calls_only P p → calls_only Q p.
Proof. intros HPQ Hp. induction Hp; constructor; auto. Qed.

Ltac kind_step :=
  match goal with
  | |- calls_only _ (_ ≫= _) => apply calls_only_bind; [|intros ?]
  | |- calls_only ?P (await ?c) => apply (calls_only_await P c); reflexivity
  | |- calls_only _ (all _) => progress unfold all
  | |- calls_only _ (bind ?p ?f) => progress change (bind p f) with (p ≫= f)
  | |- calls_only _ (print _) => apply calls_only_print
  | |- calls_only _ (try_except _ _ _) =>
    apply calls_only_try_except; [|intros ?]
  | |- calls_only _ (for_each _ _) => apply calls_only_for_each; intros ?
  | |- calls_only _ (Ret _) => constructor
  | |- calls_only _ (Raise _) => constructor
  | |- calls_only _ (Write _ _) => constructor
  | |- calls_only _ (if ?b then _ else _) => destruct b
  | |- calls_only _ (match ?x with _ => _ end) => destruct x
  end.
End TraceFacts.

Module PopupTrace.
Import Playwright Ctrip RunFacts More TraceFacts.

Lemma checked_clicks_app t1 t2 :
  checked_clicks t1 → checked_clicks t2 → checked_clicks (t1 ++ t2).
Proof.
  intros H1 H2. induction H1; simpl; [done|..].
  - by apply checked_click.
  - by apply checked_other.
Qed.

Lemma dismiss_checked desc elem : emits (dismiss desc elem) checked_clicks.
Proof.
  intros E h. unfold dismiss.
  set (visible := IsVisible elem (Some 1000%Z)).
  set (click := Click elem (Some 2000%Z)).
  rewrite run_bind. step_await.
  destruct (E h visible) as [[|]|e] eqn:Hvis.
  - rewrite run_bind. step_await.
    destruct (E _ click) as [[]|e] eqn:Hclick.
    + rewrite run_bind, run_print. step_await. cbn [fst].
      eexists [_; _; _; _]. rewrite <- !app_assoc. split; [reflexivity|].
      apply checked_click. by repeat apply checked_other; try constructor.
    + eexists [_; _]. cbn [fst]. rewrite <- !app_assoc.
      split; [reflexivity|]. apply checked_click. constructor.
  - eexists [_]. split; [reflexivity|]. by apply checked_other; [|constructor].
  - eexists [_]. split; [reflexivity|]. by apply checked_other; [|constructor].
Qed.

(** X11: whatever the page answers, [handle_popups] makes no call but
    element counts, visibility checks within 1 s, clicks within 2 s and
    pauses of 500 ms; and every click comes right after a visibility
    check of the same element that answered [True]. *)
Theorem popups_click_only_what_is_visible :
  emits handle_popups
    (λ t, checked_clicks t
          ∧ Forall (λ c, popup_call c = true) (calls t)).
Proof.
  intros E h.
  assert (Hc : emits handle_popups checked_clicks).
  { unfold handle_popups.
    apply emits_for_each;
      [constructor|apply checked_clicks_app|intros [selector desc]].
    apply emits_try_except;
      [apply checked_clicks_app| |intros e; apply emits_ret; constructor].
    apply emits_bind; [apply checked_clicks_app|..].
    - intros E' h'. rewrite run_all. eexists [_]. split; [reflexivity|].
      by apply checked_other; [|constructor].
    - intros elements.
      apply emits_for_each; [constructor|apply checked_clicks_app|].
      apply dismiss_checked. }
  assert (Hk : calls_only (λ c, popup_call c = true) handle_popups).
  { unfold handle_popups, dismiss. repeat kind_step. }
  destruct (Hc E h) as (t & Ht & Hchecked).
  destruct (calls_only_emits _ _ Hk E h) as (t' & Ht' & Hcalls).
  rewrite Ht in Ht'. apply app_inv_head in Ht'. subst t'. eauto.
Qed.

Lemma popup_query_only_counts desc elements :
  emits (for_each elements (dismiss desc)) (λ t, calls_where is_count t = []).
Proof.
  eapply emits_weaken.
  - apply (calls_only_emits (λ c, is_count c = false)).
    unfold dismiss. repeat kind_step.
  - intros t. apply calls_where_none.
Qed.

Lemma run_popup_handler (E : env) selector desc h :
  ∃ t,
    run E (try_except except_any
             (elements ← all (Locator selector);
              for_each elements (dismiss desc))
             (λ _, Ret tt)) h
    = (h ++ Called (Count (Locator selector)) (E h (Count (Locator selector)))
         :: t, Ok tt)
    ∧ calls_where is_count t = [].
Proof.
  rewrite run_try_except, run_bind, run_all.
  destruct (E h (Count (Locator selector))) as [n|e].
  - destruct (popup_query_only_counts desc
                (Nth (Locator selector) <$> seq 0 n) E
                (h ++ [Called (Count (Locator selector)) (Ok n)]))
      as (t & Ht & Hnone).
    exists t. split; [|done].
    destruct (run E (for_each _ _) _) as [h2 [[]|e]];
      simpl in Ht; subst h2; by rewrite <- app_assoc.
  - exists []. done.
Qed.

Lemma run_popups_queries (E : env) handlers h :
  ∃ t,
    (run E (for_each handlers (λ '(selector, desc),
       try_except except_any
         (elements ← all (Locator selector); for_each elements (dismiss desc))
         (λ _, Ret tt))) h).1 = h ++ t
    ∧ calls_where is_count t
      = (λ handler, Count (Locator handler.1)) <$> handlers.
Proof.
  revert h. induction handlers as [|[selector desc] rest IH]; intros h.
  - exists []. simpl. by rewrite app_nil_r.
  - cbn [for_each].
    change (bind ?p ?f) with (p ≫= f). rewrite run_bind.
    destruct (run_popup_handler E selector desc h) as (t1 & -> & Hnone).
    edestruct IH as (t2 & -> & Hq).
    eexists (_ :: t1 ++ t2). rewrite <- app_assoc. split; [reflexivity|].
    change (?x :: t1 ++ t2) with ([x] ++ t1 ++ t2).
    rewrite !calls_where_app, Hnone, Hq. reflexivity.
Qed.

(** X10: [handle_popups] returns in every world, and it queries each of
    its five patterns once, in their order, whatever happened with the
    patterns before: no failure and no click keeps a later pattern from
    being tried. *)
Theorem popups_try_every_pattern (E : env) h :
  ∃ t, run E handle_popups h = (h ++ t, Ok tt)
       ∧ calls_where is_count t
         = (λ handler, Count (Locator handler.1)) <$> popup_handlers.
Proof.
  destruct (run_popups_queries E popup_handlers h) as (t & Ht & Hq).
  fold handle_popups in Ht. exists t. split; [|done].
  destruct (PopupFacts.handle_popups_returns E h) as [[] Hr].
  destruct (run E handle_popups h) as [h' r]. simpl in *. by subst.
Qed.
End PopupTrace.


(* ===================================================================== *)
(** * Footprints, error paths and the life cycle *)
(* ===================================================================== *)

Module FootprintFacts.
Import Playwright Ctrip RunFacts More TraceFacts.

Lemma find_flight_elements_kind (P : call → Prop) candidates :
  (∀ l, P (Count l)) → calls_only P (find_flight_elements candidates).
Proof.
  intros HP. induction candidates as [|selector rest IH];
    cbn [find_flight_elements]; [constructor|].
  apply calls_only_bind.
  - apply calls_only_try_except; [|constructor].
    apply calls_only_bind.
    + unfold all. change (bind ?p ?f) with (p ≫= f).
      apply calls_only_bind; [by apply calls_only_await|intros n; constructor].
    + intros [|elem elements]; [constructor|].
      apply calls_only_bind; [apply calls_only_print|intros _; constructor].
  - intros [elements|]; [constructor|exact IH].
Qed.

Lemma extract_cards_kind `{PyRuntime} (P : call → Prop) elems flights :
  (∀ l, P (TextContent l)) → (∀ l, P (AllTextContents l)) →
  calls_only P (extract_cards elems flights).
Proof.
  intros Htext Hall. revert flights.
  induction elems as [|elem rest IH]; intros flights;
    cbn [extract_cards]; [constructor|].
  apply calls_only_bind; [|intros ?; apply IH].
  unfold extract_card. apply calls_only_try_except; [|constructor].
  apply calls_only_bind; [|intros info; destruct (has_basic_info info); constructor].
  unfold read_card. cbv zeta.
  repeat (apply calls_only_bind;
          [match goal with
           | |- calls_only _ (await ?c) => by apply (calls_only_await P c)
           end|intros ?]).
  constructor.
Qed.

(** The structured phase never asks for the body text. *)
Lemma extract_structured_kind `{PyRuntime} :
  calls_only (λ c, reads c = true ∧ is_inner_text c = false)
    extract_structured.
Proof.
  unfold extract_structured.
  apply calls_only_bind; [by apply (calls_only_await _ Content)|intros _].
  apply calls_only_bind; [by apply find_flight_elements_kind|intros elems].
  by apply extract_cards_kind.
Qed.

Lemma extract_generic_kind `{PyRuntime} :
  calls_only (λ c, reads c = true) extract_generic_flight_info.
Proof.
  unfold extract_generic_flight_info.
  constructor; [done|]. intros [text|e].
  - destruct (generic_records text) as [flights [e|]]; repeat kind_step.
  - repeat kind_step.
Qed.

Lemma extract_flight_info_kind `{PyRuntime} :
  calls_only (λ c, reads c = true) extract_flight_info.
Proof.
  unfold extract_flight_info. apply calls_only_bind.
  - eapply calls_only_weaken; [|apply extract_structured_kind]. by intros c [? _].
  - intros [|flight flights]; [|constructor].
    apply calls_only_bind; [apply calls_only_print|intros _].
    apply extract_generic_kind.
Qed.

(** X7: [extract_flight_info] only reads the page (page content,
    element counts, texts, body text): it never clicks, fills or
    navigates; and it asks for the body text, the input of the fallback,
    exactly when the structured extraction returned no record. *)
Theorem extraction_reads_and_falls_back `{PyRuntime} (E : env) h :
  ∃ t, (run E extract_flight_info h).1 = h ++ t
       ∧ Forall (λ c, reads c = true) (calls t)
       ∧ (InnerText "body" ∈ calls t
          ↔ (run E extract_structured h).2 = Ok []).
Proof.
  destruct (calls_only_emits _ _ extract_flight_info_kind E h)
    as (t & Ht & Hreads).
  exists t. split; [done|]. split; [done|]. revert Ht.
  unfold extract_flight_info. rewrite run_bind.
  destruct (calls_only_emits _ _ extract_structured_kind E h)
    as (t1 & Ht1 & Hkind).
  assert (Hnot : InnerText "body" ∉ calls t1).
  { intros Hin. apply (proj1 (Forall_forall _ _) Hkind) in Hin.
    by destruct Hin. }
  destruct (run E extract_structured h) as [h1 [flights|e]];
    cbn [fst snd] in *; subst h1.
  - destruct flights as [|flight flights].
    + rewrite run_bind, run_print.
      unfold extract_generic_flight_info. cbn [run].
      set (r := E _ (InnerText "body")).
      match goal with
      | |- (run E ?p ?h0).1 = _ → _ =>
        destruct (run_extends E p h0) as [t3 Ht3]
      end.
      rewrite Ht3, <- !app_assoc. intros Ht.
      apply app_inv_head in Ht. subst t. split; [done|]. intros _.
      rewrite !calls_app. apply elem_of_app. right. apply elem_of_app. right.
      simpl. apply elem_of_cons. by left.
    + cbn [run fst]. intros Ht. apply app_inv_head in Ht. subst t.
      split; [done|discriminate].
  - intros Ht. apply app_inv_head in Ht. subst t. split; [done|discriminate].
Qed.
End FootprintFacts.

Module ErrorPaths.
Import Playwright Ctrip RunFacts More TraceFacts.

(** X15: a [BaseException] raised by the main sequence (an interrupt, a
    cancellation) is not handled: nothing is printed about it and no
    screenshot is taken; the browser is closed all the same, and the
    exception goes on (unless closing raises, which then goes on
    instead). *)
Theorem base_exception_skips_the_handler `{PyRuntime} (E : env)
    tomorrow_str h h1 e :
  run E (main_sequence tomorrow_str) h = (h1, Err e) →
  except_Exception e = false →
  run E (guarded tomorrow_str) h
  = (h1 ++ Spec.closing E h1,
     match E h1 BrowserClose with Ok _ => Err e | Err e' => Err e' end).
Proof.
  intros Hmain He. unfold guarded.
  rewrite run_try_finally, run_try_except, Hmain, He.
  rewrite TopLevelFacts.run_cleanup. by destruct (E h1 BrowserClose) as [[]|e'].
Qed.

Lemma base_exception_witness :
  let rt := Scenario.ascii_runtime in
  let h1 := [Wrote (Stdout (Py.u "🌐 导航到携程网..."));
             Called (Goto (international_url (Py.u "20261105"))
                          "domcontentloaded" 60000)
                    (Err keyboard_interrupt)] in
  run interrupted (guarded (H := rt) (Py.u "2026-11-05")) []
  = (h1 ++ [Called BrowserClose (Ok tt);
            Wrote (Stdout (nl ++ Py.u "✅ 完成!"))],
     Err keyboard_interrupt).
Proof.
  intros rt h1.
  apply (base_exception_skips_the_handler (H := rt) interrupted
           (Py.u "2026-11-05") [] h1 keyboard_interrupt);
    vm_compute; reflexivity.
Defined.

(** X16: when the main sequence raised an [Exception] and the
    screenshot of the handler fails too, the 60-second wait is skipped,
    the browser is closed all the same, and it is the exception of the
    screenshot that leaves the block (or that of closing, if closing
    raises). *)
Theorem screenshot_failure_still_closes `{PyRuntime} (E : env)
    tomorrow_str h h1 e e2 :
  run E (main_sequence tomorrow_str) h = (h1, Err e) →
  except_Exception e = true →
  let h2 := h1 ++ [Wrote (Stdout (nl ++ Py.u "❌ 发生错误: " ++ exn_msg e));
                   Wrote (Traceback e)] in
  E h2 (Screenshot "error_screenshot.png") = Err e2 →
  let h3 := h2 ++ [Called (Screenshot "error_screenshot.png") (Err e2)] in
  run E (guarded tomorrow_str) h
  = (h3 ++ Spec.closing E h3,
     match E h3 BrowserClose with Ok _ => Err e2 | Err e' => Err e' end).
Proof.
  intros Hmain He h2 Hshot h3. unfold guarded.
  rewrite run_try_finally, run_try_except, Hmain, He.
  assert (Hhandler : run E (on_error e) h1 = (h3, Err e2)).
  { unfold on_error. rewrite run_bind, run_print, run_bind. cbn [run].
    rewrite <- ?app_assoc. cbn [app]. rewrite run_bind. step_await.
    subst h3 h2. rewrite <- ?app_assoc in *. cbn [app] in *.
    by rewrite Hshot. }
  rewrite Hhandler, TopLevelFacts.run_cleanup.
  by destruct (E h3 BrowserClose) as [[]|e'].
Qed.

Lemma screenshot_failure_witness :
  let rt := Scenario.ascii_runtime in
  calls (run closed_window (guarded (H := rt) (Py.u "2026-11-05")) []).1
  = [Goto (international_url (Py.u "20261105")) "domcontentloaded" 60000;
     Screenshot "error_screenshot.png"; BrowserClose]
  ∧ (run closed_window (guarded (H := rt) (Py.u "2026-11-05")) []).2
    = Err target_closed.
Proof.
  intros rt.
  pose proof (screenshot_failure_still_closes (H := rt) closed_window
    (Py.u "2026-11-05") []
    [Wrote (Stdout (Py.u "🌐 导航到携程网..."));
     Called (Goto (international_url (Py.u "20261105")) "domcontentloaded" 60000)
            (Err target_closed)]
    target_closed target_closed) as Hrun.
  rewrite Hrun; [split; vm_compute; reflexivity|..]; vm_compute; reflexivity.
Defined.
End ErrorPaths.

Module LifeCycle.
Import Playwright Ctrip RunFacts More TraceFacts.

Lemma click_search_page candidates :
  calls_only (λ c, main_call c = true) (click_search candidates).
Proof.
  induction candidates as [|selector rest IH]; cbn [click_search]; cbv zeta;
    repeat kind_step; exact IH.
Qed.

Lemma main_sequence_page `{PyRuntime} tomorrow_str :
  calls_only (λ c, main_call c = true) (main_sequence tomorrow_str).
Proof.
  assert (Hpopups : calls_only (λ c, main_call c = true) handle_popups).
  { unfold handle_popups, dismiss. repeat kind_step. }
  assert (Hfill : ∀ selector city excuse,
            calls_only (λ c, main_call c = true)
              (fill_city selector city excuse)).
  { intros. unfold fill_city. cbv zeta. repeat kind_step. }
  assert (Hsubmit : calls_only (λ c, main_call c = true) submit).
  { unfold submit. repeat kind_step. apply click_search_page. }
  assert (Hextract : calls_only (λ c, main_call c = true) extract_flight_info).
  { eapply calls_only_weaken; [|apply FootprintFacts.extract_flight_info_kind].
    intros c Hc. by destruct c. }
  assert (Hreport : ∀ flights,
            calls_only (λ c, main_call c = true) (report tomorrow_str flights)).
  { intros flights. unfold report.
    repeat (apply calls_only_bind; [apply calls_only_print|intros _]).
    destruct flights as [|flight flights]; [repeat kind_step|].
    apply calls_only_for_each. intros [i fl]. unfold print_flight.
    repeat kind_step. }
  unfold main_sequence.
  repeat match goal with
  | |- calls_only _ handle_popups => exact Hpopups
  | |- calls_only _ (fill_city _ _ _) => apply Hfill
  | |- calls_only _ submit => exact Hsubmit
  | |- calls_only _ extract_flight_info => exact Hextract
  | |- calls_only _ (report _ _) => apply Hreport
  | _ => kind_step
  end.
Qed.

(** X17: a run of the guarded block takes a screenshot exactly when its
    main sequence raised an [Exception], then exactly one, into
    [error_screenshot.png]; a run whose main sequence returned, or
    raised a [BaseException], takes none. *)
Theorem screenshot_only_after_failure `{PyRuntime} (E : env) tomorrow_str h :
  ∃ t, (run E (guarded tomorrow_str) h).1 = h ++ t
       ∧ calls_where is_screenshot t
         = match (run E (main_sequence tomorrow_str) h).2 with
           | Ok _ => []
           | Err e => if except_Exception e
                      then [Screenshot "error_screenshot.png"] else []
           end.
Proof.
  unfold guarded. rewrite run_try_finally, run_try_except.
  destruct (calls_only_emits _ _ (main_sequence_page tomorrow_str) E h)
    as (t1 & Ht1 & Hmain).
  assert (Hnone : calls_where is_screenshot t1 = []).
  { apply calls_where_none. eapply Forall_impl; [exact Hmain|].
    intros c Hc. by destruct c. }
  assert (Hclose : ∀ h', calls_where is_screenshot (Spec.closing E h') = []).
  { intros h'. unfold Spec.closing. by destruct (E h' BrowserClose). }
  destruct (run E (main_sequence tomorrow_str) h) as [h1 [[]|e]];
    cbn [fst snd] in *; subst h1.
  - rewrite TopLevelFacts.run_cleanup.
    exists (t1 ++ Spec.closing E (h ++ t1)). split.
    + rewrite app_assoc. by destruct (E (h ++ t1) BrowserClose).
    + by rewrite calls_where_app, Hnone, Hclose.
  - destruct (except_Exception e).
    + unfold on_error. rewrite run_bind, run_print, run_bind. cbn [run].
      rewrite run_bind. step_await.
      match goal with
      | |- context [Called (Screenshot ?path) ?r] =>
        set (shot := Called (Screenshot path) r)
      end.
      assert (Hshot : calls_where is_screenshot [shot]
                      = [Screenshot "error_screenshot.png"]) by done.
      destruct (E _ (Screenshot _)) as [[]|e'].
      * rewrite run_bind, run_print, run_bind, run_print. step_await.
        rewrite TopLevelFacts.run_cleanup.
        eexists (t1 ++ [_; _] ++ [shot] ++ [_; _; _] ++ Spec.closing E _).
        split.
        -- rewrite <- !app_assoc. cbn [app].
           by destruct (E _ BrowserClose).
        -- by rewrite !calls_where_app, Hnone, Hshot, Hclose.
      * rewrite TopLevelFacts.run_cleanup.
        eexists (t1 ++ [_; _] ++ [shot] ++ Spec.closing E _). split.
        -- rewrite <- !app_assoc. cbn [app].
           by destruct (E _ BrowserClose).
        -- by rewrite !calls_where_app, Hnone, Hshot, Hclose.
    + rewrite TopLevelFacts.run_cleanup.
      exists (t1 ++ Spec.closing E (h ++ t1)). split.
      * rewrite app_assoc. by destruct (E (h ++ t1) BrowserClose).
      * by rewrite calls_where_app, Hnone, Hclose.
Qed.



End LifeCycle.


(* ===================================================================== *)
(** * The form and the report *)
(* ===================================================================== *)

Module FormFacts.
Import Playwright Ctrip RunFacts More TraceFacts.



End FormFacts.

Module ReportFacts.
Import Playwright Ctrip RunFacts More TraceFacts.

Lemma run_print_flight (E : env) i flight h :
  ∃ t, run E (print_flight i flight) h = (h ++ t, Ok tt)
       ∧ calls t = [] ∧ length t = 8.
Proof.
  unfold print_flight.
  repeat (rewrite run_bind, run_print; cbv beta iota). rewrite run_print.
  rewrite <- !app_assoc. cbn [app].
  eexists [_; _; _; _; _; _; _; _]. split; [reflexivity|]. done.
Qed.

Lemma run_print_flights (E : env) (numbered : list (nat * gmap string (list N))) h :
  ∃ t, run E (for_each numbered (λ '(i, flight), print_flight i flight)) h
       = (h ++ t, Ok tt)
       ∧ calls t = [] ∧ length t = 8 * length numbered.
Proof.
  revert h. induction numbered as [|[i flight] rest IH]; intros h.
  - exists []. simpl. by rewrite app_nil_r.
  - cbn [for_each]. change (bind ?p ?f) with (p ≫= f).
    rewrite run_bind.
    destruct (run_print_flight E i flight h) as (t1 & -> & Hcalls1 & Hlen1).
    destruct (IH (h ++ t1)) as (t2 & -> & Hcalls2 & Hlen2).
    exists (t1 ++ t2). rewrite <- app_assoc. split; [reflexivity|].
    rewrite calls_app, Hcalls1, Hcalls2, length_app. cbn [length]. split; [done|lia].
Qed.

(** X13: the report never raises and makes no browser call; it prints 8
    times when there is no flight (the header and the advice) and
    3 + 8n times for n > 0 flights. *)
Theorem report_always_prints (E : env) tomorrow_str flights h :
  ∃ t, run E (report tomorrow_str flights) h = (h ++ t, Ok tt)
       ∧ calls t = []
       ∧ length t = match flights with
                    | [] => 8
                    | _ :: _ => 3 + 8 * length flights
                    end.
Proof.
  unfold report.
  do 3 (rewrite run_bind, run_print; cbv beta iota). rewrite <- !app_assoc.
  destruct flights as [|flight flights].
  - repeat (rewrite run_bind, run_print; cbv beta iota). rewrite run_print.
    rewrite <- !app_assoc. cbn [app].
    eexists [_; _; _; _; _; _; _; _]. split; [reflexivity|]. done.
  - edestruct run_print_flights as (t & -> & Hcalls & Hlen).
    eexists (_ :: _ :: _ :: t). rewrite <- !app_assoc. split; [reflexivity|].
    split; [exact Hcalls|]. cbn [length]. rewrite Hlen, length_imap.
    cbn [length]. lia.
Qed.
End ReportFacts.


(* ===================================================================== *)
(** * Fatal and harmless failures *)
(* ===================================================================== *)

Module FailureFacts.
Import Playwright Ctrip RunFacts More TraceFacts.

Lemma fails_by_call_ret {A} (a : A) : fails_by_call (Ret a).
Proof. intros E h h1 e Hrun. discriminate Hrun. Qed.

Lemma fails_by_call_print line : fails_by_call (print line).
Proof. intros E h h1 e Hrun. discriminate Hrun. Qed.

Lemma fails_by_call_await c : fails_by_call (await c).
Proof.
  intros E h h1 e. rewrite run_await. intros [= <- Hc].
  exists c, h. by rewrite Hc.
Qed.

Lemma fails_by_call_bind {A B} (p : prog A) (f : A → prog B) :
  fails_by_call p → (∀ a, fails_by_call (f a)) → fails_by_call (p ≫= f).
Proof.
  intros Hp Hf E h h1 e. rewrite run_bind.
  destruct (run E p h) as [h' [a|e']] eqn:Hrun.
  - apply Hf.
  - intros [= <- <-]. by eapply Hp.
Qed.

Lemma fails_fatally_bind {A B} (p : prog A) (f : A → prog B) :
  fails_fatally p → (∀ a, fails_fatally (f a)) → fails_fatally (p ≫= f).
Proof.
  intros Hp Hf E h h1 e. rewrite run_bind.
  destruct (run E p h) as [h' [a|e']] eqn:Hrun.
  - apply Hf.
  - intros [= <- <-]. by eapply Hp.
Qed.

Lemma fails_fatally_never {A} (p : prog A) :
  never_raises p → fails_fatally p.
Proof.
  intros Hp E h h1 e Hrun. destruct (Hp E h) as [a Ha].
  rewrite Hrun in Ha. discriminate Ha.
Qed.

Lemma fails_fatally_await c :
  (∀ e, fatal c e = true) → fails_fatally (await c).
Proof.
  intros Hc E h h1 e Hrun.
  destruct (fails_by_call_await c E h h1 e Hrun) as [c' Hby].
  rewrite run_await in Hrun. injection Hrun as <- Hr.
  exists c. split; [|apply Hc]. exists h. by rewrite Hr.
Qed.

(** What [except Exception] lets through is fatal. *)
Lemma fails_fatally_except_Exception {A} (p : prog A) handler :
  fails_by_call p → (∀ e, never_raises (handler e)) →
  fails_fatally (try_except except_Exception p handler).
Proof.
  intros Hp Hh E h h1 e. rewrite run_try_except.
  destruct (run E p h) as [h' [a|e']] eqn:Hrun; [discriminate|].
  destruct (except_Exception e') eqn:He'.
  - intros Hrun'. destruct (Hh e' E h') as [a Ha].
    rewrite Hrun' in Ha. discriminate Ha.
  - intros [= <- <-]. destruct (Hp E h h' e' Hrun) as [c Hc].
    exists c. split; [done|]. unfold fatal. by rewrite He'.
Qed.

Ltac by_call_step :=
  match goal with
  | |- fails_by_call (_ ≫= _) => apply fails_by_call_bind; [|intros ?]
  | |- fails_by_call (await ?c) => apply (fails_by_call_await c)
  | |- fails_by_call (print _) => apply fails_by_call_print
  | |- fails_by_call (Ret _) => apply fails_by_call_ret
  | |- fails_by_call (if ?b then _ else _) => destruct b
  | |- fails_by_call (match ?x with _ => _ end) => destruct x
  end.

Lemma fill_city_fails_fatally selector city excuse :
  fails_fatally (fill_city selector city excuse).
Proof.
  unfold fill_city. cbv zeta. apply fails_fatally_except_Exception.
  - repeat by_call_step.
  - intros e. apply never_raises_print.
Qed.

Lemma submit_returns : never_raises submit.
Proof.
  intros E h. unfold submit. rewrite run_try_except.
  destruct (SubmitFacts.click_search_attempts E search_selectors h)
    as (t & -> & _). by exists tt.
Qed.

Lemma wait_for_list_fails_fatally selector timeout line :
  fails_fatally
    (try_except except_PlaywrightTimeoutError
       (await (WaitForSelector selector timeout)) (λ _, print line)).
Proof.
  intros E h h1 e. rewrite run_try_except. step_await.
  destruct (E h (WaitForSelector selector timeout)) as [[]|e'] eqn:Hwait;
    [discriminate|].
  destruct (except_PlaywrightTimeoutError e') eqn:He'; [discriminate|].
  intros [= <- <-]. exists (WaitForSelector selector timeout).
  split; [by exists h|]. unfold fatal. rewrite He'. apply orb_true_r.
Qed.

Lemma extract_cards_fails_fatally `{PyRuntime} elems flights :
  fails_fatally (extract_cards elems flights).
Proof.
  revert flights. induction elems as [|elem rest IH]; intros flights.
  - intros E h h1 e Hrun. discriminate Hrun.
  - cbn [extract_cards]. apply fails_fatally_bind; [|intros ?; apply IH].
    unfold extract_card. apply fails_fatally_except_Exception.
    + apply fails_by_call_bind.
      * unfold read_card. cbv zeta. repeat by_call_step.
      * intros info. destruct (has_basic_info info); apply fails_by_call_ret.
    + intros e. apply never_raises_ret.
Qed.

Lemma extract_generic_fails_fatally `{PyRuntime} :
  fails_fatally extract_generic_flight_info.
Proof.
  intros E h h1 e. unfold extract_generic_flight_info. cbn [run].
  destruct (E h (InnerText "body")) as [text|e'] eqn:Htext.
  - rewrite FallbackFacts.generic_records_ok. discriminate.
  - destruct (except_Exception e') eqn:He'; [discriminate|].
    cbn [run]. intros [= <- <-]. exists (InnerText "body").
    split; [by exists h|]. unfold fatal. by rewrite He'.
Qed.

Lemma extract_flight_info_fails_fatally `{PyRuntime} :
  fails_fatally extract_flight_info.
Proof.
  unfold extract_flight_info, extract_structured.
  apply fails_fatally_bind.
  - apply fails_fatally_bind;
      [apply (fails_fatally_await Content); intros e; apply orb_true_r
      |intros _].
    apply fails_fatally_bind.
    + apply fails_fatally_never, StructuredFacts.find_flight_elements_returns.
    + intros elems. apply extract_cards_fails_fatally.
  - intros [|flight flights].
    + apply fails_fatally_bind; [|intros _; apply extract_generic_fails_fatally].
      apply fails_fatally_never, never_raises_print.
    + apply fails_fatally_never, never_raises_ret.
Qed.

Lemma report_returns tomorrow_str flights :
  never_raises (report tomorrow_str flights).
Proof.
  unfold report.
  repeat (apply never_raises_bind; [apply never_raises_print|intros _]).
  destruct flights as [|flight flights].
  - repeat (apply never_raises_bind; [apply never_raises_print|intros _]).
    apply never_raises_print.
  - apply never_raises_for_each. intros [i fl]. unfold print_flight.
    repeat (apply never_raises_bind; [apply never_raises_print|intros _]).
    apply never_raises_print.
Qed.

(** Every exception a run ends with was the answer to a call. *)
Lemma raised_by_answer (E : env) h1 e c :
  raised_by E h1 e c → ∃ h0, E h0 c = Err e.
Proof. intros (h0 & _ & Hc). by exists h0. Qed.

Lemma main_sequence_fatal `{PyRuntime} tomorrow_str :
  fails_fatally (main_sequence tomorrow_str).
Proof.
  unfold main_sequence.
  repeat match goal with
  | |- fails_fatally (_ ≫= _) => apply fails_fatally_bind; [|intros ?]
  | |- fails_fatally (print _) => apply fails_fatally_never, never_raises_print
  | |- fails_fatally (await ?c) =>
    apply (fails_fatally_await c); intros ?; apply orb_true_iff; right;
    reflexivity
  | |- fails_fatally handle_popups =>
    apply fails_fatally_never, PopupFacts.handle_popups_returns
  | |- fails_fatally (fill_city _ _ _) => apply fill_city_fails_fatally
  | |- fails_fatally submit => apply fails_fatally_never, submit_returns
  | |- fails_fatally (try_except _ _ _) => apply wait_for_list_fails_fatally
  | |- fails_fatally extract_flight_info =>
    apply extract_flight_info_fails_fatally
  | |- fails_fatally (report _ _) => apply fails_fatally_never, report_returns
  end.
Qed.

Lemma main_sequence_returns `{PyRuntime} (E : env) tomorrow_str h :
  (∀ h' c e, E h' c = Err e → fatal c e = false) →
  (run E (main_sequence tomorrow_str) h).2 = Ok tt.
Proof.
  intros Hsoft.
  destruct (run E (main_sequence tomorrow_str) h) as [h1 [[]|e]] eqn:Hrun;
    [done|].
  destruct (main_sequence_fatal tomorrow_str E h h1 e Hrun)
    as (c & Hby & Hfatal).
  destruct (raised_by_answer E h1 e c Hby) as [h0 Hc].
  by rewrite (Hsoft h0 c e Hc) in Hfatal.
Qed.

(** X14: when the main sequence raises, the exception is the answer to
    its last call, and that failure is fatal: a [BaseException], or any
    exception of a navigation, of [page.content()], of one of the three
    pauses of the main sequence, or an exception other than a timeout of
    the wait for the flight list.  So when no call fails fatally the
    main sequence returns: failures of popups, form fields, the search
    button, card reads and the body text never end it. *)
Theorem main_sequence_fails_only_fatally `{PyRuntime} (E : env)
    tomorrow_str h :
  (∀ h1 e, run E (main_sequence tomorrow_str) h = (h1, Err e) →
           ∃ c, raised_by E h1 e c ∧ fatal c e = true)
  ∧ ((∀ h' c e, E h' c = Err e → fatal c e = false) →
     (run E (main_sequence tomorrow_str) h).2 = Ok tt).
Proof.
  split.
  - intros h1 e. apply main_sequence_fatal.
  - apply main_sequence_returns.
Qed.

Lemma main_sequence_witness :
  (run Scenario.many_cards
     (main_sequence (H := Scenario.ascii_runtime) (Py.u "2026-11-05")) []).2
  = Ok tt.
Proof.
  apply (proj2 (main_sequence_fails_only_fatally (H := Scenario.ascii_runtime)
                  Scenario.many_cards (Py.u "2026-11-05") [])).
  intros h' c e.
  destruct c as [| | | | | | | | | |l| | | | |l| | | |];
    cbn [Scenario.many_cards]; intros Hc;
    try discriminate Hc; try (destruct l; discriminate Hc).
  assert (e = Scenario.timeout_error) as ->; [|reflexivity].
  unfold Scenario.card_text in Hc. repeat case_match; congruence.
Defined.
Lemma outputs_app h t : outputs (h ++ t) = outputs h ++ outputs t.
Proof. unfold outputs. apply omap_app. Qed.

(** X19: when the date has a tomorrow, and no call fails fatally, and
    none of the calls that start and stop things fails, the script
    returns and the last line it prints is [✅ 完成!]. *)
Theorem healthy_run_completes `{PyRuntime} (E : env) h today tomorrow :
  E h DatetimeNow = Ok today →
  Datetime.add_one_day today = Ok tomorrow →
  (∀ h' c e, E h' c = Err e → fatal c e = false ∧ lifecycle c = false) →
  let after := run E search_flights h in
  after.2 = Ok tt
  ∧ last (outputs after.1) = Some (Stdout (nl ++ Py.u "✅ 完成!")).
Proof.
  intros Hnow Hadd Hok after. subst after.
  assert (Hlife : ∀ h' c, lifecycle c = true → ∃ v, E h' c = Ok v).
  { intros h' c Hc. destruct (E h' c) as [v|e] eqn:Hr; [by exists v|].
    destruct (Hok h' c e Hr) as [_ Hno]. by rewrite Hc in Hno. }
  unfold search_flights. rewrite run_bind. step_await. rewrite Hnow.
  cbv beta iota. rewrite run_bind, Hadd. cbn [raise_or_return run].
  cbv zeta. rewrite run_bind, run_print. cbv beta iota.
  rewrite run_bind. step_await.
  destruct (Hlife (((h ++ [Called DatetimeNow (Ok today)])
     ++ [Wrote (Stdout (Py.u "📅 查询日期: "
                        ++ Datetime.strftime_Y_m_d tomorrow))]))
     PlaywrightStart eq_refl) as [[] ->].
  cbv beta iota. rewrite run_try_finally. unfold session.
  rewrite run_bind, run_print. cbv beta iota. rewrite run_bind. step_await.
  match goal with
  | |- context [E ?h0 (Launch false 500)] =>
    destruct (Hlife h0 (Launch false 500) eq_refl) as [[] ->]
  end.
  cbv beta iota. rewrite run_bind. step_await.
  match goal with
  | |- context [E ?h0 NewContext] =>
    destruct (Hlife h0 NewContext eq_refl) as [[] ->]
  end.
  cbv beta iota. rewrite run_bind. step_await.
  match goal with
  | |- context [E ?h0 NewPage] =>
    destruct (Hlife h0 NewPage eq_refl) as [[] ->]
  end.
  cbv beta iota. unfold guarded.
  rewrite run_try_finally, run_try_except.
  match goal with
  | |- context [run E (main_sequence ?ts) ?h0] =>
    pose proof (main_sequence_returns E ts h0
                  (λ h' c e Hr, proj1 (Hok h' c e Hr))) as Hmain;
    destruct (run E (main_sequence ts) h0) as [h1 r]
  end.
  cbn [snd] in Hmain. subst r. rewrite TopLevelFacts.run_cleanup.
  unfold Spec.closing.
  destruct (Hlife h1 BrowserClose eq_refl) as [[] ->].
  step_await.
  match goal with
  | |- context [E ?h0 PlaywrightStop] =>
    destruct (Hlife h0 PlaywrightStop eq_refl) as [[] ->]
  end.
  cbn [fst snd]. split; [done|].
  rewrite !outputs_app. cbn [outputs omap output_of app].
  rewrite app_nil_r. apply last_snoc.
Qed.

Lemma healthy_run_witness :
  let after := run Scenario.many_cards
                 (search_flights (H := Scenario.ascii_runtime)) [] in
  after.2 = Ok tt
  ∧ last (outputs after.1) = Some (Stdout (nl ++ Py.u "✅ 完成!")).
Proof.
  apply (healthy_run_completes (H := Scenario.ascii_runtime)
           Scenario.many_cards [] (Datetime.Date 2026 11 4)
           (Datetime.Date 2026 11 5)); [reflexivity..|].
  intros h' c e.
  destruct c as [| | | | | | | | | |l| | | | |l| | | |];
    cbn [Scenario.many_cards]; intros Hc;
    try discriminate Hc; try (destruct l; discriminate Hc).
  assert (e = Scenario.timeout_error) as ->; [|done].
  unfold Scenario.card_text in Hc. repeat case_match; congruence.
Defined.
End FailureFacts.


(* ===================================================================== *)
(** * The calendar *)
(* ===================================================================== *)

Module CalendarFacts.
Import Playwright Ctrip RunFacts More.

Lemma month_cases (m : N) :
  (1 ≤ m ≤ 12)%N →
  m ∈ [1; 2; 3; 4; 5; 6; 7; 8; 9; 10; 11; 12]%N.
Proof.
  intros Hm.
  assert (Hnat : N.to_nat m ∈ seq 1 12) by (apply elem_of_seq; lia).
  apply (list_elem_of_fmap_2 N.of_nat) in Hnat.
  by rewrite N2Nat.id in Hnat.
Qed.

Lemma next_month y m :
  (1 ≤ m < 12)%N →
  (days_before_month y (m + 1)
   = days_before_month y m + Datetime.days_in_month y m)%N.
Proof.
  intros Hm. assert (Hcases : (1 ≤ m ≤ 12)%N) by lia.
  apply month_cases in Hcases. unfold days_before_month.
  repeat (apply elem_of_cons in Hcases as [->|Hcases];
          [try lia; cbn; by destruct (Datetime.is_leap y)|]).
  by apply elem_of_nil in Hcases.
Qed.

Lemma div_pred (y k : N) :
  (1 ≤ y)%N → (1 < k)%N →
  ((y - 1) / k = if (y mod k =? 0) then y / k - 1 else y / k)%N.
Proof.
  intros Hy Hk. pose proof (N.div_mod y k ltac:(lia)) as Hdm.
  pose proof (N.mod_lt y k ltac:(lia)) as Hlt.
  destruct (N.eqb_spec (y mod k) 0) as [H0|Hn].
  - symmetry. apply (N.div_unique _ _ _ (k - 1)); [lia|].
    rewrite H0, N.add_0_r in Hdm.
    destruct (y / k)%N as [|q] using N.peano_ind; [lia|].
    rewrite <- N.add_1_r, N.add_sub. rewrite <- N.add_1_r in Hdm.
    rewrite N.mul_add_distr_l, N.mul_1_r in Hdm. clear IHq Hlt H0.
    generalize dependent (k * q)%N. intros. lia.
  - symmetry. apply (N.div_unique _ _ _ (y mod k - 1)); [lia|].
    generalize dependent (k * (y / k))%N. generalize dependent (y mod k)%N.
    intros. lia.
Qed.

Lemma next_year y :
  (1 ≤ y)%N →
  (days_before_year (y + 1)
   = days_before_year y + days_before_month y 12 + 31)%N.
Proof.
  intros Hy.
  change (days_before_month y 12)
    with (334 + if Datetime.is_leap y then 1 else 0)%N.
  unfold days_before_year, Datetime.is_leap.
  replace (y + 1 - 1)%N with y by lia. rewrite !div_pred by lia.
  assert (H100 : (y mod 100 = 0 → y mod 4 = 0)%N).
  { rewrite !N.Lcm0.mod_divide. intros Hd.
    apply (N.divide_trans _ 100); [by exists 25%N|done]. }
  assert (H400 : (y mod 400 = 0 → y mod 100 = 0)%N).
  { rewrite !N.Lcm0.mod_divide. intros Hd.
    apply (N.divide_trans _ 400); [by exists 4%N|done]. }
  assert (Hle1 : (y / 100 ≤ y / 4)%N) by (apply N.div_le_compat_l; lia).
  assert (Hle2 : (y / 400 ≤ y / 100)%N) by (apply N.div_le_compat_l; lia).
  assert (Hpos : ∀ k, (1 < k → y mod k = 0 → 1 ≤ y / k)%N).
  { intros k Hk H0. pose proof (N.div_mod y k ltac:(lia)) as Hdm.
    rewrite H0, N.add_0_r in Hdm. destruct (y / k)%N; lia. }
  assert (Hlt : (y mod 4 = 0 → y / 100 < y / 4)%N).
  { intros H0. change 100%N with (4 * 25)%N. rewrite <- N.Div0.div_div.
    apply N.div_lt; [|lia]. specialize (Hpos 4%N). lia. }
  assert (Hlt2 : (y mod 100 = 0 → y / 400 < y / 100)%N).
  { intros H0. change 400%N with (100 * 4)%N. rewrite <- N.Div0.div_div.
    apply N.div_lt; [|lia]. specialize (Hpos 100%N). lia. }
  pose proof (Hpos 4%N ltac:(lia)) as H4.
  pose proof (Hpos 100%N ltac:(lia)) as H1.
  pose proof (Hpos 400%N ltac:(lia)) as H40. clear Hpos.
  destruct (N.eqb_spec (y mod 4) 0), (N.eqb_spec (y mod 100) 0),
           (N.eqb_spec (y mod 400) 0); cbn [andb orb negb];
    repeat match goal with
    | H : ?P → _, H' : ?P |- _ => specialize (H H')
    end;
    generalize dependent (y / 4)%N; generalize dependent (y / 100)%N;
    generalize dependent (y / 400)%N;
    generalize dependent (y mod 4)%N; generalize dependent (y mod 100)%N;
    generalize dependent (y mod 400)%N; intros; lia.
Qed.

(** X20: for a valid date, [+ timedelta(days=1)] gives a valid date
    whose day number is the day number of the date plus one; it fails
    only for 9999-12-31. *)
Theorem tomorrow_is_the_next_day today :
  Datetime.valid today →
  match Datetime.add_one_day today with
  | Ok tomorrow =>
    Datetime.valid tomorrow ∧ toordinal tomorrow = (toordinal today + 1)%N
  | Err _ => today = Datetime.Date 9999 12 31
  end.
Proof.
  destruct today as [y m d].
  unfold Datetime.valid, Datetime.add_one_day, Datetime.MINYEAR,
    Datetime.MAXYEAR, toordinal.
  cbn [Datetime.year Datetime.month Datetime.day].
  intros (Hy & Hm & Hd).
  pose proof (DateFacts.days_in_month_bounds y m) as Hdim.
  destruct (N.ltb_spec d (Datetime.days_in_month y m)) as [Hlt|Hge].
  { cbn [Datetime.year Datetime.month Datetime.day]. lia. }
  assert (d = Datetime.days_in_month y m) as -> by lia.
  destruct (N.ltb_spec m 12) as [Hlt|Hge'].
  { cbn [Datetime.year Datetime.month Datetime.day].
    pose proof (DateFacts.days_in_month_bounds y (m + 1)).
    rewrite next_month by lia. lia. }
  assert (m = 12%N) as -> by lia.
  change (Datetime.days_in_month y 12) with 31%N in *.
  destruct (N.ltb_spec y 9999) as [Hlt|Hge''].
  - cbn [Datetime.year Datetime.month Datetime.day].
    change (Datetime.days_in_month (y + 1) 1) with 31%N.
    rewrite next_year by lia.
    change (days_before_month (y + 1) 1) with 0%N. lia.
  - f_equal. lia.
Qed.

Lemma tomorrow_witness :
  Datetime.valid (Datetime.Date 2025 1 1)
  ∧ toordinal (Datetime.Date 2025 1 1)
    = (toordinal (Datetime.Date 2024 12 31) + 1)%N.
Proof.
  apply (tomorrow_is_the_next_day (Datetime.Date 2024 12 31)).
  unfold Datetime.valid. vm_compute. intuition discriminate.
Defined.
End CalendarFacts.


(* ===================================================================== *)
(** * The phases of the main sequence *)
(* ===================================================================== *)

Module PhaseFacts.
Import Playwright Ctrip RunFacts More TraceFacts.

Lemma follows_nothing {A} kind (p : prog A) :
  calls_only (λ c, kind c = false) p → follows kind p [].
Proof.
  intros Hp E h. destruct (calls_only_emits _ _ Hp E h) as (t & Ht & Hnone).
  apply calls_where_none in Hnone. exists t. split; [done|].
  split; [by exists 0|done].
Qed.

Lemma follows_await kind c : kind c = true → follows kind (await c) [c].
Proof.
  intros Hc E h. rewrite run_await. eexists [_]. split; [reflexivity|].
  unfold calls_where, calls. simpl. rewrite Hc.
  split; [by exists 1|done].
Qed.

Lemma follows_bind {A B} kind (p : prog A) (f : A → prog B) cs1 cs2 :
  follows kind p cs1 → (∀ a, follows kind (f a) cs2) →
  follows kind (p ≫= f) (cs1 ++ cs2).
Proof.
  intros Hp Hf E h. rewrite run_bind.
  destruct (Hp E h) as (t1 & Ht1 & [k Hk] & Hall).
  destruct (run E p h) as [h1 [a|e]]; cbn [fst snd] in *; subst h1.
  - specialize (Hall a eq_refl).
    destruct (Hf a E (h ++ t1)) as (t2 & Ht2 & [k2 Hk2] & Hall2).
    exists (t1 ++ t2). rewrite Ht2, app_assoc. split; [done|].
    rewrite calls_where_app, Hall. split.
    + exists (length cs1 + k2). by rewrite Hk2, take_app_add.
    + intros b Hb. by rewrite (Hall2 b Hb).
  - exists t1. split; [done|]. split; [|done].
    exists (k `min` length cs1). rewrite Hk, take_app_le by lia.
    destruct (decide (k ≤ length cs1)) as [Hle|Hgt].
    + by replace (k `min` length cs1) with k by lia.
    + replace (k `min` length cs1) with (length cs1) by lia.
      by rewrite !take_ge by lia.
Qed.

Lemma click_search_phase candidates :
  calls_only (λ c, phase_call c = false) (click_search candidates).
Proof.
  induction candidates as [|selector rest IH]; cbn [click_search]; cbv zeta;
    repeat kind_step; exact IH.
Qed.

Lemma wait_for_list_follows selector timeout line :
  follows phase_call
    (try_except except_PlaywrightTimeoutError
       (await (WaitForSelector selector timeout)) (λ _, print line))
    [WaitForSelector selector timeout].
Proof.
  intros E h. rewrite run_try_except. step_await.
  destruct (E h (WaitForSelector selector timeout)) as [[]|e].
  - eexists [_]. split; [reflexivity|]. split; [by exists 1|done].
  - destruct (except_PlaywrightTimeoutError e).
    + rewrite run_print. eexists [_; _]. rewrite <- app_assoc.
      split; [reflexivity|]. split; [by exists 1|done].
    + eexists [_]. split; [reflexivity|]. split; [by exists 1|done].
Qed.

Lemma extract_flight_info_follows `{PyRuntime} :
  follows phase_call extract_flight_info [Content].
Proof.
  unfold extract_flight_info, extract_structured.
  apply (follows_bind _ _ _ [Content] []).
  - apply (follows_bind _ _ _ [Content] []);
      [by apply (follows_await _ Content)|intros _].
    apply follows_nothing.
    apply calls_only_bind;
      [by apply FootprintFacts.find_flight_elements_kind|intros elems].
    by apply FootprintFacts.extract_cards_kind.
  - intros [|flight flights]; apply follows_nothing; [|constructor].
    apply calls_only_bind; [apply calls_only_print|intros _].
    unfold extract_generic_flight_info.
    constructor; [done|]. intros [text|e].
    + destruct (generic_records text) as [fl [e|]]; repeat kind_step.
    + repeat kind_step.
Qed.

(** X21: the phases of the main sequence come in one order: the first
    navigation, the pause of 3 s, the second navigation, the pause of
    3 s, the pause of 5 s, the wait for the flight list, the read of the
    page content (the start of the extraction) and the pause of 30 s.
    Every run makes some first ones of these calls, in this order and
    each once, and a run that returns has made them all. *)
Theorem main_sequence_phases `{PyRuntime} tomorrow_str :
  follows phase_call (main_sequence tomorrow_str) (phases tomorrow_str).
Proof.
  assert (Hpopups : calls_only (λ c, phase_call c = false) handle_popups).
  { unfold handle_popups, dismiss. repeat kind_step. }
  assert (Hfill : ∀ selector city excuse,
            calls_only (λ c, phase_call c = false)
              (fill_city selector city excuse)).
  { intros. unfold fill_city. cbv zeta. repeat kind_step. }
  assert (Hsubmit : calls_only (λ c, phase_call c = false) submit).
  { unfold submit. repeat kind_step. apply click_search_phase. }
  assert (Hreport : ∀ flights,
            calls_only (λ c, phase_call c = false)
              (report tomorrow_str flights)).
  { intros flights. unfold report.
    repeat (apply calls_only_bind; [apply calls_only_print|intros _]).
    destruct flights as [|flight flights]; [repeat kind_step|].
    apply calls_only_for_each. intros [i fl]. unfold print_flight.
    repeat kind_step. }
  unfold main_sequence, phases.
  set (u1 := Goto (international_url _) _ _).
  set (u2 := Goto (domestic_url _) _ _).
  set (w := WaitForSelector _ _).
  apply (follows_bind _ _ _ [] [u1; WaitForTimeout 3000; u2; WaitForTimeout 3000;
                                 WaitForTimeout 5000; w; Content;
                                 WaitForTimeout 30000]);
    [apply follows_nothing, calls_only_print|intros _].
  apply (follows_bind _ _ _ [u1]); [by apply follows_await|intros _].
  apply (follows_bind _ _ _ [WaitForTimeout 3000]);
    [by apply follows_await|intros _].
  do 3 (apply (follows_bind _ _ _ []);
        [apply follows_nothing; first [apply calls_only_print|exact Hpopups]
        |intros _]).
  apply (follows_bind _ _ _ [u2]); [by apply follows_await|intros _].
  apply (follows_bind _ _ _ [WaitForTimeout 3000]);
    [by apply follows_await|intros _].
  do 7 (apply (follows_bind _ _ _ []);
        [apply follows_nothing;
         first [apply calls_only_print|exact Hpopups|apply Hfill
               |exact Hsubmit]
        |intros _]).
  apply (follows_bind _ _ _ [WaitForTimeout 5000]);
    [by apply follows_await|intros _].
  apply (follows_bind _ _ _ [w]); [apply wait_for_list_follows|intros _].
  do 2 (apply (follows_bind _ _ _ []);
        [apply follows_nothing; first [apply calls_only_print|exact Hpopups]
        |intros _]).
  apply (follows_bind _ _ _ [Content]);
    [apply extract_flight_info_follows|intros flights].
  do 2 (apply (follows_bind _ _ _ []);
        [apply follows_nothing; first [apply calls_only_print|apply Hreport]
        |intros _]).
  by apply (follows_await phase_call (WaitForTimeout 30000)).
Qed.
End PhaseFacts.

Module PauseFacts.
Import Playwright Ctrip RunFacts More TraceFacts.

Lemma settled_app t1 t2 : settled t1 → settled t2 → settled (t1 ++ t2).
Proof.
  intros H1 H2. induction H1; simpl; [done|..].
  - by apply settled_goto.
  - by apply settled_failed.
  - by apply settled_other.
Qed.

Lemma emits_try_finally {A} (p : prog A) cleanup (T : list event → Prop) :
  (∀ t1 t2, T t1 → T t2 → T (t1 ++ t2)) →
  emits p T → emits cleanup T → emits (try_finally p cleanup) T.
Proof.
  intros Happ Hp Hc E h. rewrite run_try_finally.
  destruct (Hp E h) as (t1 & Ht1 & HT1).
  destruct (run E p h) as [h1 r]. cbn [fst] in Ht1. subst h1.
  destruct (Hc E (h ++ t1)) as (t2 & Ht2 & HT2).
  exists (t1 ++ t2). rewrite app_assoc. split; [|auto].
  by destruct (run E cleanup (h ++ t1)) as [h2 [[]|e]].
Qed.

(** A program that does not navigate leaves nothing to settle. *)
Lemma emits_quiet {A} (p : prog A) : calls_only no_goto p → emits p settled.
Proof.
  intros Hp. eapply emits_weaken; [by apply calls_only_emits|].
  intros t. revert t.
  assert (Hquiet : ∀ t, Forall no_goto (omap call_of t) → settled t).
  { induction t as [|ev t IH]; [constructor|].
    destruct ev as [o|c r]; cbn [omap call_of].
    - intros Hall. apply settled_other; [done|by apply IH].
    - intros Hall. apply Forall_cons in Hall as [Hc Hall].
      apply settled_other; [by destruct c|by apply IH]. }
  exact Hquiet.
Qed.

Lemma emits_goto_pause {A} url wait_until timeout (rest : prog A) :
  emits rest settled →
  emits (await (Goto url wait_until timeout);;
         await (WaitForTimeout 3000);; rest) settled.
Proof.
  intros Hrest E h. rewrite run_bind. step_await.
  destruct (E h (Goto url wait_until timeout)) as [[]|e].
  2:{ eexists [_]. split; [reflexivity|]. apply settled_failed. constructor. }
  rewrite run_bind. step_await.
  destruct (E _ (WaitForTimeout 3000)) as [[]|e].
  2:{ eexists [_; _]. rewrite <- app_assoc. split; [reflexivity|].
      apply settled_goto. constructor. }
  match goal with
  | |- context [run E rest ?h0] => destruct (Hrest E h0) as (t & -> & Ht)
  end.
  eexists (_ :: _ :: t). rewrite <- !app_assoc. split; [reflexivity|].
  by apply settled_goto.
Qed.

(** X22: in every run of the script, every navigation that returned is
    followed at once by the pause of 3 seconds: nothing is printed and
    no other call is made in between. *)
Theorem every_navigation_is_followed_by_a_pause `{PyRuntime} :
  emits search_flights settled.
Proof.
  assert (Hmain : ∀ tomorrow_str, emits (main_sequence tomorrow_str) settled).
  { intros tomorrow_str. unfold main_sequence.
    apply emits_bind; [apply settled_app|apply emits_quiet, calls_only_print|].
    intros _. apply emits_goto_pause.
    do 3 (apply emits_bind;
          [apply settled_app
          |apply emits_quiet; repeat DateFacts.no_goto_step|intros _]).
    apply emits_goto_pause.
    apply emits_quiet. repeat DateFacts.no_goto_step. }
  unfold search_flights.
  apply emits_bind; [apply settled_app| |intros now].
  { apply emits_quiet. by apply (calls_only_await no_goto DatetimeNow). }
  apply emits_bind; [apply settled_app| |intros tomorrow].
  { apply emits_quiet. destruct (Datetime.add_one_day now); constructor. }
  cbv zeta.
  apply emits_bind;
    [apply settled_app|apply emits_quiet, calls_only_print|intros _].
  apply emits_bind; [apply settled_app| |intros _].
  { apply emits_quiet. by apply (calls_only_await no_goto PlaywrightStart). }
  apply emits_try_finally; [apply settled_app| |].
  2:{ apply emits_quiet. by apply (calls_only_await no_goto PlaywrightStop). }
  unfold session.
  do 4 (apply emits_bind;
        [apply settled_app
        |apply emits_quiet; repeat DateFacts.calls_step|intros _]).
  unfold guarded. apply emits_try_finally; [apply settled_app| |].
  - apply emits_try_except; [apply settled_app|apply Hmain|intros e].
    apply emits_quiet. unfold on_error. repeat DateFacts.calls_step.
  - apply emits_quiet. unfold cleanup. repeat DateFacts.calls_step.
Qed.
End PauseFacts.
